(** * ScrollGuard native classifier: a shallow embedding and its properties

    The development follows the C++ sources under [app/src/main/cpp]:

    - [jni/llama_jni.cpp]: [LlamaWrapper::Impl] (model life cycle and
      [classify_content]) and the namespace [content_utils]
      ([classify_with_heuristics], [prepare_content_for_analysis],
      [generate_classification_prompt]);
    - [jni/content_classifier.cpp]: [ContentClassifier]
      ([determine_category], [apply_context_adjustments]) and its public
      functions;
    - [jni/model_loader.cpp]: [ModelLoader] ([validate_model_file],
      [create_placeholder_model], [download_model_async], the catalogue
      and its formatting) and its public functions;
    - [native/native_bridge.cpp]: the JNI entry points and the response
      they serialise.

    The build without [LLAMA_CPP_AVAILABLE] is embedded (the fallback
    mode); [llama.h] is not part of the repository.  Of the other build
    only [classify_with_llama] is embedded, which uses nothing of the
    inference library.  The two memory estimates of [ModelLoader], which
    compute in [double], are left out.

    Conventions.  A C++ [float] is an IEEE-754 binary32 value, given by the
    Standard Library's [spec_float] at precision 24 and maximal exponent
    128, so that sums, products and quotients round as the hardware does.
    A [std::string] is a [string] (a sequence of 8-bit characters), the
    character classification functions are those of the "C" locale.  A
    file system is a finite map from paths to byte sequences.  Wall-clock
    readings are inputs of the functions that take them. *)

From Stdlib Require Import ZArith List Bool Ascii String Lia Floats.SpecFloat.
From Stdlib Require Import Numbers.DecimalString.
From stdpp Require Import base option gmap strings.

Import ListNotations.
Local Open Scope string_scope.
Local Open Scope Z_scope.

(** ** C++ [float]: IEEE-754 binary32 *)

Module Float32.

Definition prec : Z := 24.
Definition emax : Z := 128.

Definition float : Type := spec_float.

Definition add : float -> float -> float := SFadd prec emax.
Definition mul : float -> float -> float := SFmul prec emax.
Definition div : float -> float -> float := SFdiv prec emax.

(** [a < b], [a <= b] and [a == b] on floats. *)
Definition ltb : float -> float -> bool := SFltb.
Definition leb : float -> float -> bool := SFleb.
Definition eqb : float -> float -> bool := SFeqb.

(** [static_cast<float>(n)] for an integer [n], rounding to nearest. *)
Definition of_int (n : Z) : float := binary_normalize prec emax n 0 false.

(** The value of a decimal literal [num/den] (with [den] a power of ten):
    the binary32 number nearest to it, which is what the correctly
    rounded quotient of the two exactly representable integers gives. *)
Definition decimal (num den : Z) : float := div (of_int num) (of_int den).

Definition f0    : float := Eval vm_compute in of_int 0.         (* 0.0f   *)
Definition f1    : float := Eval vm_compute in of_int 1.         (* 1.0f   *)
Definition f100  : float := Eval vm_compute in of_int 100.       (* 100.0f *)
Definition f0_1  : float := Eval vm_compute in decimal 1 10.     (* 0.1f   *)
Definition f0_15 : float := Eval vm_compute in decimal 15 100.   (* 0.15f  *)
Definition f0_2  : float := Eval vm_compute in decimal 2 10.     (* 0.2f   *)
Definition f0_5  : float := Eval vm_compute in decimal 5 10.     (* 0.5f   *)
Definition f0_6  : float := Eval vm_compute in decimal 6 10.     (* 0.6f   *)
Definition f0_65 : float := Eval vm_compute in decimal 65 100.   (* 0.65f  *)
Definition f0_7  : float := Eval vm_compute in decimal 7 10.     (* 0.7f   *)
Definition f0_8  : float := Eval vm_compute in decimal 8 10.     (* 0.8f   *)
Definition f0_9  : float := Eval vm_compute in decimal 9 10.     (* 0.9f   *)

(** [std::max(a, b)] is [(a < b) ? b : a]; [std::min(a, b)] is
    [(b < a) ? b : a]. *)
Definition max (a b : float) : float := if ltb a b then b else a.
Definition min (a b : float) : float := if ltb b a then b else a.

(** The values the tables and the comparisons of the classifier range
    over: [+0] and the positive finite numbers. *)
Definition nonneg (x : float) : Prop :=
  match x with
  | S754_zero false => True
  | S754_finite false _ _ => True
  | _ => False
  end.

End Float32.

(** ** C++ [int]: 32-bit two's complement *)

Module Int32.

Definition wrap (z : Z) : Z := (z + 2^31) mod 2^32 - 2^31.

(** [n++] *)
Definition incr (n : Z) : Z := wrap (n + 1).

End Int32.

(** ** [std::string] and [<cctype>] in the "C" locale *)

Module StdString.

Definition code (c : ascii) : N := N_of_ascii c.

Definition isupper (c : ascii) : bool := ((65 <=? code c) && (code c <=? 90))%N.
Definition islower (c : ascii) : bool := ((97 <=? code c) && (code c <=? 122))%N.
Definition isalpha (c : ascii) : bool := isupper c || islower c.

(** space, [\t], [\n], [\v], [\f], [\r]: what [\s] matches. *)
Definition isspace (c : ascii) : bool :=
  ((code c =? 32) || ((9 <=? code c) && (code c <=? 13)))%N.

Definition tolower (c : ascii) : ascii :=
  if isupper c then ascii_of_N (code c + 32) else c.

(** [std::transform(s.begin(), s.end(), s.begin(), f)] *)
Fixpoint transform (f : ascii -> ascii) (s : string) : string :=
  match s with
  | EmptyString => EmptyString
  | String c r => String (f c) (transform f r)
  end.

(** [std::count(s.begin(), s.end(), c)] *)
Fixpoint count (c : ascii) (s : string) : Z :=
  match s with
  | EmptyString => 0
  | String d r => (if Ascii.eqb d c then 1 else 0) + count c r
  end.

Fixpoint starts_with (pat s : string) : bool :=
  match pat, s with
  | EmptyString, _ => true
  | String _ _, EmptyString => false
  | String a p, String b r => Ascii.eqb a b && starts_with p r
  end.

(** [s.find(pat)]: the least position at which [pat] occurs in [s];
    [None] stands for [std::string::npos]. *)
Fixpoint find (s pat : string) : option nat :=
  if starts_with pat s then Some 0%nat
  else match s with
       | EmptyString => None
       | String _ r => option_map S (find r pat)
       end.

(** [s.find(pat) != std::string::npos] *)
Definition contains (s pat : string) : bool :=
  match find s pat with Some _ => true | None => false end.

Fixpoint mem (c : ascii) (set : string) : bool :=
  match set with
  | EmptyString => false
  | String d r => Ascii.eqb c d || mem c r
  end.

(** [s.find_first_not_of(set)] *)
Fixpoint find_first_not_of (s set : string) : option nat :=
  match s with
  | EmptyString => None
  | String c r =>
      if mem c set then option_map S (find_first_not_of r set) else Some 0%nat
  end.

(** [s.find_last_not_of(set)] *)
Fixpoint find_last_not_of (s set : string) : option nat :=
  match s with
  | EmptyString => None
  | String c r =>
      match find_last_not_of r set with
      | Some i => Some (S i)
      | None => if mem c set then None else Some 0%nat
      end
  end.

Fixpoint take (n : nat) (s : string) : string :=
  match n, s with
  | O, _ => EmptyString
  | S _, EmptyString => EmptyString
  | S k, String c r => String c (take k r)
  end.

Fixpoint drop (n : nat) (s : string) : string :=
  match n, s with
  | O, _ => s
  | S _, EmptyString => EmptyString
  | S k, String _ r => drop k r
  end.

(** [s.substr(0, n)] *)
Definition substr0 (s : string) (n : nat) : string := take n s.

(** [s.erase(0, count)], where [count] may be [npos]: the first [count]
    characters go, all of them when [count] is [npos]. *)
Definition erase_front (s : string) (count : option nat) : string :=
  match count with
  | Some n => drop n s
  | None => EmptyString
  end.

(** [s.erase(pos + 1)] for [pos] the result of a search: everything from
    index [pos + 1] on goes; [npos + 1] wraps around to [0]. *)
Definition erase_after (s : string) (pos : option nat) : string :=
  match pos with
  | Some i => take (S i) s
  | None => take 0 s
  end.

(** [std::regex_replace(s, std::regex("\\s+"), " ")]: every maximal run
    of white space becomes one space.  [in_run] tells that the previous
    character belonged to a run already replaced. *)
Fixpoint replace_ws_runs (in_run : bool) (s : string) : string :=
  match s with
  | EmptyString => EmptyString
  | String c r =>
      if isspace c
      then (if in_run then replace_ws_runs true r
            else String " " (replace_ws_runs true r))
      else String c (replace_ws_runs false r)
  end.

Definition regex_replace_ws (s : string) : string := replace_ws_runs false s.

(** [std::to_string(n)] for an [int]. *)
Definition to_string (n : Z) : string := NilZero.string_of_int (Z.to_int n).

End StdString.


(** ** The data model of [include/llama_wrapper.h] *)

Record ModelConfig : Type := {
  model_path : string;
  n_ctx : Z;
  n_threads : Z;
  temperature : Float32.float;
  top_k : Z;
  top_p : Float32.float;
  use_mmap : bool;
  use_mlock : bool;
  n_gpu_layers : Z
}.

(** The default member initialisers of [ModelConfig]. *)
Definition default_ModelConfig : ModelConfig :=
  {| model_path := "";
     n_ctx := 2048;
     n_threads := 4;
     temperature := Float32.f0_1;
     top_k := 1;
     top_p := Float32.f0_1;
     use_mmap := true;
     use_mlock := false;
     n_gpu_layers := 0 |}.

Record ClassificationResult : Type := {
  is_productive : bool;
  confidence : Float32.float;
  reason : string;
  processing_time_ms : Z;
  success : bool;
  error_message : string
}.

(** [ClassificationResult result;] default-initialises the two strings to
    the empty string and leaves the scalar members indeterminate: they
    keep whatever [indeterminate] holds. *)
Definition default_initialized (indeterminate : ClassificationResult)
  : ClassificationResult :=
  {| is_productive := is_productive indeterminate;
     confidence := confidence indeterminate;
     reason := "";
     processing_time_ms := processing_time_ms indeterminate;
     success := success indeterminate;
     error_message := "" |}.

Definition set_confidence (r : ClassificationResult) (c : Float32.float) :=
  {| is_productive := is_productive r; confidence := c; reason := reason r;
     processing_time_ms := processing_time_ms r; success := success r;
     error_message := error_message r |}.

(** [r.reason += suffix] *)
Definition append_reason (r : ClassificationResult) (suffix : string) :=
  {| is_productive := is_productive r; confidence := confidence r;
     reason := reason r ++ suffix;
     processing_time_ms := processing_time_ms r; success := success r;
     error_message := error_message r |}.

Definition set_success (r : ClassificationResult) (b : bool) :=
  {| is_productive := is_productive r; confidence := confidence r;
     reason := reason r; processing_time_ms := processing_time_ms r;
     success := b; error_message := error_message r |}.

Definition set_error_message (r : ClassificationResult) (e : string) :=
  {| is_productive := is_productive r; confidence := confidence r;
     reason := reason r; processing_time_ms := processing_time_ms r;
     success := success r; error_message := e |}.

Definition set_processing_time_ms (r : ClassificationResult) (t : Z) :=
  {| is_productive := is_productive r; confidence := confidence r;
     reason := reason r; processing_time_ms := t;
     success := success r; error_message := error_message r |}.

(** ** [namespace content_utils] ([jni/llama_jni.cpp]) *)

Module content_utils.
Import Float32 StdString.

Definition unproductive_patterns : list (string * float) :=
  [ ("you won't believe", f0_9);
    ("shocking", f0_8);
    ("viral", f0_7);
    ("trending", f0_7);
    ("clickbait", f0_9);
    ("drama", f0_7);
    ("gossip", f0_8);
    ("must see", f0_7);
    ("watch this", f0_6);
    ("epic fail", f0_8);
    ("omg", f0_6);
    ("wtf", f0_7);
    ("insane", f0_7);
    ("crazy", f0_6) ].

Definition productive_patterns : list (string * float) :=
  [ ("how to", f0_9);
    ("tutorial", f0_9);
    ("learn", f0_8);
    ("education", f0_9);
    ("guide", f0_8);
    ("research", f0_9);
    ("analysis", f0_8);
    ("study", f0_8);
    ("insight", f0_8);
    ("explanation", f0_8);
    ("understand", f0_7);
    ("science", f0_8);
    ("technology", f0_7);
    ("knowledge", f0_8) ].

(** The text the patterns are searched in: [content] through [::tolower]
    and then through the replacement of [\s+] by one space. *)
Definition lower_content (content : string) : string :=
  regex_replace_ws (transform tolower content).

(** One of the two loops over a pattern table, from the score [0.0f]. *)
Definition max_pattern_score (patterns : list (string * float))
                             (text : string) : float :=
  fold_left
    (fun score pattern =>
       if contains text (fst pattern)
       then Float32.max score (snd pattern)
       else score)
    patterns f0.

(** The local variables [is_productive], [confidence] and [reason]. *)
Record Verdict : Type := {
  v_is_productive : bool;
  v_confidence : float;
  v_reason : string
}.

(** "Determine classification": the state of the three variables after
    the keyword decision, for the normalised text [text]. *)
Definition keyword_decision (text : string) : Verdict :=
  let max_unproductive_score := max_pattern_score unproductive_patterns text in
  let max_productive_score := max_pattern_score productive_patterns text in
  if ltb max_unproductive_score max_productive_score then
    {| v_is_productive := true; v_confidence := max_productive_score;
       v_reason := "educational_keywords" |}
  else if ltb max_productive_score max_unproductive_score then
    {| v_is_productive := false; v_confidence := max_unproductive_score;
       v_reason := "unproductive_keywords" |}
  else if ltb f0 max_unproductive_score && ltb f0 max_productive_score then
    {| v_is_productive := true; v_confidence := f0_5;
       v_reason := "mixed_content" |}
  else
    {| v_is_productive := true; v_confidence := f0_6;
       v_reason := "neutral_content" |}.

(** The loop counting [caps_count] and [letter_count] over the original
    text; it returns [(caps_count, letter_count)]. *)
Fixpoint count_caps (content : string) (caps_count letter_count : Z) : Z * Z :=
  match content with
  | EmptyString => (caps_count, letter_count)
  | String c r =>
      if isalpha c
      then count_caps r
             (if isupper c then Int32.incr caps_count else caps_count)
             (Int32.incr letter_count)
      else count_caps r caps_count letter_count
  end.

Definition caps_count (content : string) : Z := fst (count_caps content 0 0).
Definition letter_count (content : string) : Z := snd (count_caps content 0 0).

(** [letter_count > 0 && (float)caps_count / letter_count > 0.5f] *)
Definition excessive_caps (content : string) : bool :=
  (0 <? letter_count content)
  && ltb f0_5 (div (of_int (caps_count content)) (of_int (letter_count content))).

Definition caps_override (content : string) (v : Verdict) : Verdict :=
  if excessive_caps content then
    {| v_is_productive := false;
       v_confidence := Float32.max (v_confidence v) f0_7;
       v_reason := "excessive_caps" |}
  else v.

(** [exclamation_count > 3 || question_count > 3] *)
Definition excessive_punctuation (content : string) : bool :=
  (3 <? count "!" content) || (3 <? count "?" content).

Definition punctuation_override (content : string) (v : Verdict) : Verdict :=
  if excessive_punctuation content then
    {| v_is_productive := false;
       v_confidence := Float32.max (v_confidence v) f0_6;
       v_reason := "excessive_punctuation" |}
  else v.

(** The three variables at the end of the function. *)
Definition final_verdict (content : string) : Verdict :=
  punctuation_override content
    (caps_override content (keyword_decision (lower_content content))).

(** [processing_time] is the difference of the two clock readings. *)
Definition classify_with_heuristics (processing_time : Z) (content : string)
  : ClassificationResult :=
  let v := final_verdict content in
  {| is_productive := v_is_productive v;
     confidence := v_confidence v;
     reason := v_reason v;
     processing_time_ms := processing_time;
     success := true;
     error_message := "" |}.

Definition tab : ascii := ascii_of_nat 9.
Definition newline : ascii := ascii_of_nat 10.
Definition carriage_return : ascii := ascii_of_nat 13.
Definition double_quote : ascii := ascii_of_nat 34.

(** The set [" \t\n\r"] of the two trimming searches. *)
Definition trim_set : string :=
  String " " (String tab (String newline (String carriage_return ""))).

Definition prepare_content_for_analysis (raw_content : string) : string :=
  let content := regex_replace_ws raw_content in
  let content := erase_front content (find_first_not_of content trim_set) in
  let content := erase_after content (find_last_not_of content trim_set) in
  if (500 <? String.length content)%nat
  then substr0 content 500 ++ "..."
  else content.

Definition generate_classification_prompt (content : string) : string :=
  "Classify this social media content as PRODUCTIVE or UNPRODUCTIVE."
  ++ String newline (String newline
  ("PRODUCTIVE content: educational, informative, constructive, helpful"
  ++ String newline
  ("UNPRODUCTIVE content: clickbait, gossip, drama, time-wasting"
  ++ String newline (String newline
  ("Content: " ++ String double_quote
  (prepare_content_for_analysis content
  ++ String double_quote (String newline (String newline
  "Classification:")))))))).

End content_utils.

(** ** [class ContentClassifier] ([jni/content_classifier.cpp]) *)

Module ContentClassifier.
Import Float32 StdString.

Inductive ContentCategory : Type :=
| NEWS
| ENTERTAINMENT
| EDUCATIONAL
| SOCIAL
| COMMERCIAL
| UNKNOWN.

Record ClassificationContext : Type := {
  app_package : string;
  category : ContentCategory;
  language : string;
  content_length : Z
}.

Definition news_keywords : list string :=
  [ "breaking"; "news"; "report"; "according to"; "sources say";
    "announcement"; "official"; "statement"; "update" ].

Definition educational_keywords : list string :=
  [ "learn"; "tutorial"; "how to"; "guide"; "explanation";
    "research"; "study"; "analysis"; "science"; "education" ].

Definition entertainment_keywords : list string :=
  [ "funny"; "hilarious"; "meme"; "viral"; "trending";
    "celebrity"; "movie"; "music"; "game"; "fun" ].

Definition commercial_keywords : list string :=
  [ "buy"; "sale"; "discount"; "offer"; "deal"; "price";
    "product"; "review"; "sponsored"; "ad" ].

(** The loop of [count_keywords], from [count = 0]. *)
Definition count_keywords (content : string) (keywords : list string) : Z :=
  fold_left
    (fun count keyword =>
       if contains content keyword then Int32.incr count else count)
    keywords 0.

Definition news_score (content : string) : Z :=
  count_keywords (transform tolower content) news_keywords.
Definition educational_score (content : string) : Z :=
  count_keywords (transform tolower content) educational_keywords.
Definition entertainment_score (content : string) : Z :=
  count_keywords (transform tolower content) entertainment_keywords.
Definition commercial_score (content : string) : Z :=
  count_keywords (transform tolower content) commercial_keywords.

(** [std::max({news, educational, entertainment, commercial})] *)
Definition max_score (content : string) : Z :=
  Z.max (Z.max (Z.max (news_score content) (educational_score content))
               (entertainment_score content))
        (commercial_score content).

Definition determine_category (content : string) : ContentCategory :=
  if max_score content =? 0 then UNKNOWN
  else if max_score content =? news_score content then NEWS
  else if max_score content =? educational_score content then EDUCATIONAL
  else if max_score content =? entertainment_score content then ENTERTAINMENT
  else if max_score content =? commercial_score content then COMMERCIAL
  else SOCIAL.

(** [result.confidence = std::min(1.0f, result.confidence + delta);
    result.reason += tag;] *)
Definition boost (result : ClassificationResult) (delta : float) (tag : string)
  : ClassificationResult :=
  append_reason
    (set_confidence result (Float32.min f1 (add (confidence result) delta)))
    tag.

(** "Adjust confidence based on app context" *)
Definition adjust_for_app (result : ClassificationResult)
                          (context : ClassificationContext) :=
  if contains (app_package context) "linkedin" then
    if is_productive result then boost result f0_2 "_linkedin_boost" else result
  else if contains (app_package context) "tiktok" then
    if negb (is_productive result) then boost result f0_1 "_tiktok_penalty"
    else result
  else result.

(** "Adjust based on content category" *)
Definition adjust_for_category (result : ClassificationResult)
                               (context : ClassificationContext) :=
  match category context with
  | EDUCATIONAL =>
      if is_productive result then boost result f0_15 "_educational_boost"
      else result
  | ENTERTAINMENT =>
      if negb (is_productive result)
      then boost result f0_1 "_entertainment_penalty" else result
  | NEWS => result
  | COMMERCIAL =>
      if negb (is_productive result)
      then boost result f0_2 "_commercial_penalty" else result
  | _ => result
  end.

(** "Adjust based on content length" *)
Definition adjust_for_length (result : ClassificationResult)
                             (context : ClassificationContext) :=
  if content_length context <? 50 then
    append_reason
      (set_confidence result (mul (confidence result) f0_8))
      "_short_content"
  else if 500 <? content_length context then
    if is_productive result then boost result f0_1 "_long_content_boost"
    else result
  else result.

Definition apply_context_adjustments (result : ClassificationResult)
                                     (context : ClassificationContext)
  : ClassificationResult :=
  adjust_for_length
    (adjust_for_category (adjust_for_app result context) context) context.

Definition classify_with_context (processing_time : Z) (content : string)
                                 (context : ClassificationContext) :=
  apply_context_adjustments
    (content_utils.classify_with_heuristics processing_time content) context.

(** The public [classify_content_with_context]. *)
Definition classify_content_with_context (processing_time : Z)
    (content app_package context_info : string) : ClassificationResult :=
  classify_with_context processing_time content
    {| app_package := app_package;
       category := determine_category content;
       language := "en";
       content_length := Int32.wrap (Z.of_nat (String.length content)) |}.

End ContentClassifier.

(** The public function [get_content_category_name] of
    [jni/content_classifier.cpp]. *)
Definition get_content_category_name (content : string) : string :=
  match ContentClassifier.determine_category content with
  | ContentClassifier.NEWS => "news"
  | ContentClassifier.EDUCATIONAL => "educational"
  | ContentClassifier.ENTERTAINMENT => "entertainment"
  | ContentClassifier.SOCIAL => "social"
  | ContentClassifier.COMMERCIAL => "commercial"
  | _ => "unknown"
  end.

(** ** The file system seen by [std::ifstream] and [std::ofstream] *)

Record FileSystem : Type := {
  (** the files that can be opened for reading, with their bytes *)
  files : gmap string (list Byte.byte);
  (** the paths at which a file can be opened for writing *)
  creatable : string -> bool
}.

(** Writing a file, seen at the path it was written at.  A path is taken
    as it is spelled: what the write does to the other spellings of the
    same file is not modelled, and the properties below speak of the
    written path only. *)
Definition write_file (fs : FileSystem) (path : string) (data : list Byte.byte)
  : FileSystem :=
  {| files := <[path := data]> (files fs); creatable := creatable fs |}.

(** ** [class ModelLoader] ([jni/model_loader.cpp]) *)

Module ModelLoader.
Import Float32 StdString.

Record ModelInfo : Type := {
  name : string;
  url : string;
  filename : string;
  size_bytes : Z;
  checksum : string;
  description : string
}.

Inductive LoadStatus : Type :=
| NOT_STARTED
| DOWNLOADING
| VALIDATING
| LOADING
| LOADED
| ERROR.

Record LoadProgress : Type := {
  status : LoadStatus;
  progress : float;
  message : string;
  progress_error_message : string
}.

Definition get_available_models : list ModelInfo :=
  [ {| name := "gemma-270m-q4";
       url := "https://huggingface.co/unsloth/gemma-3-270m-it-GGUF/resolve/main/gemma-3-270m-it-Q4_K_M.gguf";
       filename := "gemma-3-270m-it-Q4_K_M.gguf";
       size_bytes := 150 * 1024 * 1024;
       checksum := "";
       description := "Gemma 3 270M - Optimized for mobile inference" |};
    {| name := "gemma-2b-q4";
       url := "https://huggingface.co/unsloth/gemma-3-2b-it-GGUF/resolve/main/gemma-3-2b-it-Q4_K_M.gguf";
       filename := "gemma-3-2b-it-Q4_K_M.gguf";
       size_bytes := 1200 * 1024 * 1024;
       checksum := "";
       description := "Gemma 3 2B - Higher quality but larger model" |} ].

(** The four bytes ["GGUF"]. *)
Definition magic : list Byte.byte := [Byte.x47; Byte.x47; Byte.x55; Byte.x46].

Fixpoint bytes_eqb (a b : list Byte.byte) : bool :=
  match a, b with
  | [], [] => true
  | x :: a', y :: b' => Byte.eqb x y && bytes_eqb a' b'
  | _, _ => false
  end.

(** The file is opened at its end ([std::ios::ate]), [tellg] gives its
    size, then its first four bytes are read. *)
Definition validate_model_file (fs : FileSystem) (filepath : string) : bool :=
  match files fs !! filepath with
  | None => false
  | Some data =>
      let file_size := Z.of_nat (length data) in
      if file_size <? 1024 then false
      else if negb (bytes_eqb (firstn 4 data) magic) then false
      else true
  end.

(** The magic number and then 1024 zero bytes. *)
Definition placeholder_bytes : list Byte.byte :=
  magic ++ repeat Byte.x00 1024.

Definition create_placeholder_model (fs : FileSystem) (filepath : string)
  : FileSystem * bool :=
  if creatable fs filepath
  then (write_file fs filepath placeholder_bytes, true)
  else (fs, false).

Section Download.
(** The caller's state, which the progress callback acts on. *)
Context {Caller : Type}.

(** [if (progress_callback) { ...; progress_callback(progress); }] *)
Definition notify (progress_callback : option (LoadProgress -> Caller -> Caller))
                  (p : LoadProgress) (caller : Caller) : Caller :=
  match progress_callback with
  | Some callback => callback p caller
  | None => caller
  end.

(** [for (int i = ...; i <= 100; i += 10)], with [fuel] bounding the
    number of tests of the loop condition; [None] when it runs out. *)
Fixpoint download_loop (fuel : nat) (i : Z)
    (progress_callback : option (LoadProgress -> Caller -> Caller))
    (caller : Caller) : option Caller :=
  match fuel with
  | O => None
  | S fuel' =>
      if i <=? 100 then
        download_loop fuel' (i + 10) progress_callback
          (notify progress_callback
             {| status := DOWNLOADING;
                progress := div (of_int i) f100;
                message := "Downloading... " ++ to_string i ++ "%";
                progress_error_message := "" |}
             caller)
      else Some caller
  end.

(** The body of the task started by [std::async]; the value of the
    future is the returned [bool]. *)
Definition download_model_async (fuel : nat) (fs : FileSystem)
    (model_info : ModelInfo) (target_path : string)
    (progress_callback : option (LoadProgress -> Caller -> Caller))
    (caller : Caller) : option (FileSystem * Caller * bool) :=
  let caller :=
    notify progress_callback
      {| status := DOWNLOADING; progress := f0;
         message := "Starting download..."; progress_error_message := "" |}
      caller in
  match download_loop fuel 0 progress_callback caller with
  | None => None
  | Some caller =>
      let '(fs, success) := create_placeholder_model fs target_path in
      let caller :=
        notify progress_callback
          {| status := if success then LOADED else ERROR;
             progress := f1;
             message := if success then "Download completed"
                        else "Download failed";
             progress_error_message :=
               if success then "" else "Failed to create model file" |}
          caller in
      Some (fs, caller, success)
  end.
End Download.




(** [bytes] is a [size_t]. *)
Definition format_file_size (bytes : Z) : string :=
  if bytes <? 1024 then to_string bytes ++ " B"
  else if bytes <? 1024 * 1024 then to_string (bytes / 1024) ++ " KB"
  else if bytes <? 1024 * 1024 * 1024
  then to_string (bytes / 1024 / 1024) ++ " MB"
  else to_string (bytes / 1024 / 1024 / 1024) ++ " GB".

End ModelLoader.

(** ** The public interface functions of [jni/model_loader.cpp] *)

Definition get_available_model_names : list string :=
  map ModelLoader.name ModelLoader.get_available_models.


(** The loop of [get_model_download_info] over the catalogue. *)
Fixpoint find_model_info (models : list ModelLoader.ModelInfo)
    (model_name : string) : string :=
  match models with
  | [] => "Model not found: " ++ model_name
  | model :: rest =>
      if String.eqb (ModelLoader.name model) model_name
      then ModelLoader.description model ++ " (Size: "
             ++ ModelLoader.format_file_size (ModelLoader.size_bytes model)
             ++ ")"
      else find_model_info rest model_name
  end.

Definition get_model_download_info (model_name : string) : string :=
  find_model_info ModelLoader.get_available_models model_name.


(** ** [class LlamaWrapper::Impl] ([jni/llama_jni.cpp]), fallback build *)

Module LlamaWrapper.
Import Float32 StdString.

Record Impl : Type := {
  model_loaded_ : bool;
  llama_available_ : bool;
  model_config_ : ModelConfig
}.

(** The constructor: not loaded, no llama.cpp, the default configuration. *)
Definition new_Impl : Impl :=
  {| model_loaded_ := false; llama_available_ := false;
     model_config_ := default_ModelConfig |}.

(** [std::ifstream file(path); file.good()] *)
Definition ifstream_good (fs : FileSystem) (path : string) : bool :=
  match files fs !! path with
  | Some _ => true
  | None => false
  end.

Definition load_model (fs : FileSystem) (this : Impl) (config : ModelConfig)
  : Impl * bool :=
  let this := {| model_loaded_ := model_loaded_ this;
                 llama_available_ := llama_available_ this;
                 model_config_ := config |} in
  if negb (ifstream_good fs (model_path config)) then (this, false)
  else ({| model_loaded_ := true;
           llama_available_ := llama_available_ this;
           model_config_ := model_config_ this |}, true).

Definition is_model_loaded (this : Impl) : bool := model_loaded_ this.

Definition unload_model (this : Impl) : Impl :=
  if model_loaded_ this then
    {| model_loaded_ := false;
       llama_available_ := llama_available_ this;
       model_config_ := model_config_ this |}
  else this.

(** [content.empty()] *)
Definition empty (s : string) : bool :=
  match s with EmptyString => true | String _ _ => false end.

(** [indeterminate] gives the scalar members of the default-initialised
    [result]; [heuristics_time] and [total_time] are the elapsed times
    measured inside [classify_with_heuristics] and around the call. *)
Definition classify_content (this : Impl)
    (indeterminate : ClassificationResult)
    (heuristics_time total_time : Z)
    (content context : string) : ClassificationResult :=
  let result := set_success (default_initialized indeterminate) false in
  if negb (model_loaded_ this) then
    set_error_message result "Model not loaded"
  else if empty content then
    set_error_message result "Empty content"
  else
    let result := content_utils.classify_with_heuristics heuristics_time content in
    set_processing_time_ms result total_time.

Definition get_memory_usage (this : Impl) : Z :=
  if negb (model_loaded_ this) then 0 else 1024 * 1024 * 200.

Definition get_model_info (this : Impl) : string :=
  if negb (model_loaded_ this) then "Model not loaded"
  else "Fallback mode: " ++ model_path (model_config_ this).

(** [warm_up] classifies a fixed text and drops the result: the object is
    as before. *)
Definition warm_up (this : Impl) (indeterminate : ClassificationResult)
    (heuristics_time total_time : Z) : Impl :=
  if negb (model_loaded_ this) then this
  else
    let _ := classify_content this indeterminate heuristics_time total_time
               "warm up test" "" in
    this.

(** *** [classify_with_llama], the classification of the build with
    [LLAMA_CPP_AVAILABLE]; it calls nothing of the inference library. *)

Definition productive_keywords : list string :=
  [ "learn"; "education"; "research"; "study"; "analysis"; "work";
    "project"; "development"; "programming"; "science"; "technology";
    "business" ].

Definition unproductive_keywords : list string :=
  [ "funny"; "meme"; "viral"; "trending"; "celebrity"; "gossip"; "drama";
    "entertainment"; "game"; "fun"; "party"; "social" ].

(** One of the two counting loops, from [score = 0]. *)
Definition keyword_score (lower_prompt : string) (keywords : list string) : Z :=
  fold_left
    (fun count keyword =>
       if contains lower_prompt keyword then Int32.incr count else count)
    keywords 0.

Definition lower_prompt (content : string) : string :=
  transform tolower (content_utils.generate_classification_prompt content).

(** [float total_score = productive_score + unproductive_score;
    total_score > 0 ? std::abs(productive_score - unproductive_score) /
    total_score : 0.5f] *)
Definition score_confidence (productive_score unproductive_score : Z) : float :=
  let total_score := of_int (Int32.wrap (productive_score + unproductive_score)) in
  if ltb f0 total_score
  then div (of_int (Z.abs (Int32.wrap (productive_score - unproductive_score))))
           total_score
  else f0_5.

Definition classify_with_llama (processing_time : Z)
    (content context : string) : ClassificationResult :=
  let productive_score := keyword_score (lower_prompt content) productive_keywords in
  let unproductive_score :=
    keyword_score (lower_prompt content) unproductive_keywords in
  {| is_productive := unproductive_score <=? productive_score;
     confidence := score_confidence productive_score unproductive_score;
     reason := "llama_heuristic_fallback";
     processing_time_ms := processing_time;
     success := true;
     error_message := "" |}.

End LlamaWrapper.

(** ** [std::to_string(float)]: the format [%f] of the value as a double *)

Module StdFormat.
Import Float32 StdString.

(** The integer nearest to [n / d], for [0 < d]; ties go to the even one. *)
Definition round_half_even (n d : Z) : Z :=
  let q := n / d in
  let r := n mod d in
  if 2 * r <? d then q
  else if d <? 2 * r then q + 1
  else if Z.even q then q else q + 1.

(** Six decimal digits, padded with zeros on the left. *)
Definition six_digits (k : Z) : string := drop 1 (to_string (1000000 + k)).

(** A number of millionths, printed with six digits after the point. *)
Definition fixed6 (negative : bool) (millionths : Z) : string :=
  (if negative then "-" else "")
    ++ to_string (millionths / 1000000) ++ "."
    ++ six_digits (millionths mod 1000000).

(** The conversion to [double] is exact, and [%f] rounds the exact value
    to six decimals.  The sign that the C library may print before [nan]
    is not kept by [spec_float]. *)
Definition to_string_float (x : float) : string :=
  match x with
  | S754_zero s => fixed6 s 0
  | S754_infinity s => if s then "-inf" else "inf"
  | S754_nan => "nan"
  | S754_finite s m e =>
      fixed6 s
        (if 0 <=? e then Z.pos m * 2 ^ e * 1000000
         else round_half_even (Z.pos m * 1000000) (2 ^ (- e)))
  end.

End StdFormat.

(** ** The JNI entry points of [native/native_bridge.cpp]

    The global [g_llama_wrapper] is [None] when it is null and holds the
    wrapper's state otherwise; each entry point takes it and, where it
    may change it, gives it back.  A [jstring] argument arrives as the
    result of [GetStringUTFChars]: [None] when that returns null. *)

Module native_bridge.
Import Float32 StdString LlamaWrapper.

(** [std::string(const char* )]: the characters before the first NUL. *)
Fixpoint c_string (chars : string) : string :=
  match chars with
  | EmptyString => EmptyString
  | String c r => if Ascii.eqb c zero then EmptyString else String c (c_string r)
  end.

Definition quote : string := String content_utils.double_quote "".

Definition bool_text (b : bool) : string := if b then "true" else "false".

(** The literal returned when there is no loaded model or no content. *)
Definition error_json (error : string) : string :=
  "{" ++ quote ++ "success" ++ quote ++ ":false," ++ quote ++ "error" ++ quote
    ++ ":" ++ quote ++ error ++ quote ++ "}".

Definition json_of_result (result : ClassificationResult) : string :=
  let json_result :=
    "{" ++ quote ++ "success" ++ quote ++ ":" ++ bool_text (success result) ++ ","
      ++ quote ++ "is_productive" ++ quote ++ ":"
      ++ bool_text (is_productive result) ++ ","
      ++ quote ++ "confidence" ++ quote ++ ":"
      ++ StdFormat.to_string_float (confidence result) ++ ","
      ++ quote ++ "reason" ++ quote ++ ":" ++ quote ++ reason result ++ quote ++ ","
      ++ quote ++ "processing_time_ms" ++ quote ++ ":"
      ++ to_string (processing_time_ms result) in
  let json_result :=
    if negb (success result)
    then json_result ++ "," ++ quote ++ "error" ++ quote ++ ":" ++ quote
           ++ error_message result ++ quote
    else json_result in
  json_result ++ "}".

Definition nativeInit (g_llama_wrapper : option Impl) : option Impl * bool :=
  match g_llama_wrapper with
  | None => (Some new_Impl, true)
  | Some _ => (g_llama_wrapper, true)
  end.

Definition nativeLoadModel (fs : FileSystem) (g_llama_wrapper : option Impl)
    (path_cstr : option string) (n_ctx n_threads : Z) (temperature : float)
  : option Impl * bool :=
  match g_llama_wrapper with
  | None => (None, false)
  | Some wrapper =>
      match path_cstr with
      | None => (g_llama_wrapper, false)
      | Some path =>
          let config :=
            {| model_path := c_string path;
               n_ctx := n_ctx;
               n_threads := n_threads;
               temperature := temperature;
               top_k := top_k default_ModelConfig;
               top_p := top_p default_ModelConfig;
               use_mmap := use_mmap default_ModelConfig;
               use_mlock := use_mlock default_ModelConfig;
               n_gpu_layers := n_gpu_layers default_ModelConfig |} in
          let (wrapper, success) := load_model fs wrapper config in
          (Some wrapper, success)
      end
  end.

Definition nativeIsModelLoaded (g_llama_wrapper : option Impl) : bool :=
  match g_llama_wrapper with
  | None => false
  | Some wrapper => is_model_loaded wrapper
  end.

(** [context] is [None] for a null [jstring]; otherwise it holds what
    [GetStringUTFChars] gave for it. *)
Definition nativeClassifyContent (g_llama_wrapper : option Impl)
    (indeterminate : ClassificationResult) (heuristics_time total_time : Z)
    (content_cstr : option string) (context : option (option string))
  : string :=
  match g_llama_wrapper with
  | None => error_json "Model not loaded"
  | Some wrapper =>
      if negb (is_model_loaded wrapper) then error_json "Model not loaded"
      else
        let context_cstr :=
          match context with
          | Some chars => chars
          | None => Some ""
          end in
        match content_cstr with
        | None => error_json "Invalid content"
        | Some content_chars =>
            let content_str := c_string content_chars in
            let context_str :=
              c_string (match context_cstr with
                        | Some chars => chars
                        | None => ""
                        end) in
            json_of_result
              (classify_content wrapper indeterminate heuristics_time
                 total_time content_str context_str)
        end
  end.

Definition nativeGetMemoryUsage (g_llama_wrapper : option Impl) : Z :=
  match g_llama_wrapper with
  | None => 0
  | Some wrapper => get_memory_usage wrapper
  end.

Definition nativeWarmUp (g_llama_wrapper : option Impl)
    (indeterminate : ClassificationResult) (heuristics_time total_time : Z)
  : option Impl :=
  match g_llama_wrapper with
  | None => None
  | Some wrapper =>
      if is_model_loaded wrapper
      then Some (warm_up wrapper indeterminate heuristics_time total_time)
      else g_llama_wrapper
  end.

(** [unload_model] and then [reset]: the pointer is null afterwards. *)
Definition nativeCleanup (g_llama_wrapper : option Impl) : option Impl :=
  match g_llama_wrapper with
  | None => None
  | Some wrapper => let _ := unload_model wrapper in None
  end.

End native_bridge.

(** * Specification vocabulary

    The notions in which the properties below are stated, and the proof
    tactics they share.  None of this is part of the program. *)

Section Vocabulary.
Import Float32 StdString content_utils ContentClassifier ModelLoader.

(** *** Pattern scores *)

(** [pat] occurs in [text] as a substring. *)
Definition occurs_in (pat text : string) : Prop :=
  exists pre post, text = pre ++ pat ++ post.

(** [m] is the greatest weight among the phrases of [table] that occur
    in [text], and [0.0f] when none does. *)
Definition is_max_weight (table : list (string * float)) (text : string)
                         (m : float) : Prop :=
  (forall p w, In (p, w) table -> occurs_in p text -> leb w m = true) /\
  ((exists p, In (p, m) table /\ occurs_in p text) \/
   (m = f0 /\ forall p w, In (p, w) table -> ~ occurs_in p text)).

(** No phrase of [table] occurs in [text]. *)
Definition no_match (table : list (string * float)) (text : string) : Prop :=
  forall p w, In (p, w) table -> ~ occurs_in p text.

(** The weights of a table are positive finite numbers. *)
Definition positive_weights (table : list (string * float)) : Prop :=
  Forall (fun pattern => nonneg (snd pattern) /\ ltb f0 (snd pattern) = true) table.

(** One step of the loop over a pattern table. *)
Definition score_from (text : string) (score : float) (pattern : string * float) :=
  if contains text (fst pattern) then Float32.max score (snd pattern) else score.

(** *** Surface statistics *)





(** *** Binary32 rounding *)



(** *** Categories *)

(** The number of phrases of [keywords] that occur in [text]; a phrase
    counts once, however often it occurs. *)
Definition matching (text : string) (keywords : list string) : Z :=
  Z.of_nat (length (List.filter (fun keyword => contains text keyword) keywords)).

(** *** Context adjustment *)

(** The suffix each rule appends, by the verdict and the context. *)
Definition app_tag (productive : bool) (context : ClassificationContext) : string :=
  if contains (app_package context) "linkedin" then
    if productive then "_linkedin_boost" else ""
  else if contains (app_package context) "tiktok" then
    if productive then "" else "_tiktok_penalty"
  else "".

Definition category_tag (productive : bool) (context : ClassificationContext) : string :=
  match category context with
  | EDUCATIONAL => if productive then "_educational_boost" else ""
  | ENTERTAINMENT => if productive then "" else "_entertainment_penalty"
  | COMMERCIAL => if productive then "" else "_commercial_penalty"
  | _ => ""
  end.

Definition length_tag (productive : bool) (context : ClassificationContext) : string :=
  if content_length context <? 50 then "_short_content"
  else if 500 <? content_length context then
    if productive then "_long_content_boost" else ""
  else "".

(** A rule either leaves the confidence as it was or leaves it clamped. *)
Definition same_or_clamped (before after : ClassificationResult) : Prop :=
  confidence after = confidence before \/ leb (confidence after) f1 = true.

(** *** The normalisation as the specification words it

    Lower-case, collapse consecutive white space to single spaces, trim,
    and cap the length at a fixed maximum, with a marker appended. *)

Fixpoint strip_leading (s : string) : string :=
  match s with
  | EmptyString => EmptyString
  | String c r => if isspace c then strip_leading r else s
  end.

Fixpoint strip_trailing (s : string) : string :=
  match s with
  | EmptyString => EmptyString
  | String c r =>
      match strip_trailing r with
      | EmptyString => if isspace c then EmptyString else String c EmptyString
      | String d r' => String c (String d r')
      end
  end.

Definition max_length : nat := 500.

Definition truncation_marker : string := "...".

Definition cap_length (s : string) : string :=
  if (max_length <? String.length s)%nat
  then take max_length s ++ truncation_marker
  else s.


(** Every white-space character of [s] is a space. *)
Fixpoint ws_is_space (s : string) : Prop :=
  match s with
  | EmptyString => True
  | String c r => (isspace c = true -> c = " "%char) /\ ws_is_space r
  end.

(** *** The events of an acquisition run *)

(** The events, in the order of the calls of the callback. *)
Definition starting : LoadProgress :=
  {| status := DOWNLOADING; progress := f0;
     message := "Starting download..."; progress_error_message := "" |}.

Definition downloading (i : Z) : LoadProgress :=
  {| status := DOWNLOADING; progress := div (of_int i) f100;
     message := "Downloading... " ++ to_string i ++ "%";
     progress_error_message := "" |}.

Definition terminal (success : bool) : LoadProgress :=
  {| status := if success then LOADED else ERROR;
     progress := f1;
     message := if success then "Download completed" else "Download failed";
     progress_error_message :=
       if success then "" else "Failed to create model file" |}.

Definition percentages : list Z := [0; 10; 20; 30; 40; 50; 60; 70; 80; 90; 100].

Definition events (success : bool) : list LoadProgress :=
  starting :: (map downloading percentages ++ [terminal success])%list.

(** Each element is below the next one: strictly, or possibly equal. *)
Fixpoint increasing (strict : bool) (l : list float) : bool :=
  match l with
  | a :: (b :: _) as rest =>
      (if strict then ltb a b else leb a b) && increasing strict rest
  | _ => true
  end.

Definition is_terminal (p : LoadProgress) : bool :=
  match status p with
  | LOADED | ERROR => true
  | _ => false
  end.

(** The callback that records the events it receives. *)
Definition record_event (p : LoadProgress) (trace : list LoadProgress)
  : list LoadProgress :=
  (trace ++ [p])%list.

(** *** The shape of a prepared text *)

Definition first_char (s : string) : option ascii :=
  match s with
  | EmptyString => None
  | String c _ => Some c
  end.

Fixpoint last_char (s : string) : option ascii :=
  match s with
  | EmptyString => None
  | String c r =>
      match r with
      | EmptyString => Some c
      | String _ _ => last_char r
      end
  end.

(** The character, when there is one, is not white space. *)
Definition not_space (o : option ascii) : Prop :=
  forall c, o = Some c -> isspace c = false.

(** [s] neither begins nor ends with white space. *)
Definition trimmed (s : string) : Prop :=
  not_space (first_char s) /\ not_space (last_char s).

(** Every white-space character of [s] is a space, and the character
    after it is not white space. *)
Fixpoint single_spaced (s : string) : Prop :=
  match s with
  | EmptyString => True
  | String c r =>
      (isspace c = true -> c = " "%char /\ not_space (first_char r)) /\
      single_spaced r
  end.

(** *** The verdicts of the heuristic classifier *)

(** The combinations of reason, verdict and confidence. *)
Definition verdict_table : list (string * bool * float) :=
  [ ("neutral_content", true, f0_6);
    ("mixed_content", true, f0_5);
    ("educational_keywords", true, f0_7);
    ("educational_keywords", true, f0_8);
    ("educational_keywords", true, f0_9);
    ("unproductive_keywords", false, f0_6);
    ("unproductive_keywords", false, f0_7);
    ("unproductive_keywords", false, f0_8);
    ("unproductive_keywords", false, f0_9);
    ("excessive_caps", false, f0_7);
    ("excessive_caps", false, f0_8);
    ("excessive_caps", false, f0_9);
    ("excessive_punctuation", false, f0_6);
    ("excessive_punctuation", false, f0_7);
    ("excessive_punctuation", false, f0_8);
    ("excessive_punctuation", false, f0_9) ].

(** The decimal 0.4 in binary32. *)
Definition f0_4 : float := Eval vm_compute in decimal 4 10.

(** *** The prompt around the content *)

(** The keywords of a list that the prompt around an empty content does
    not contain: the ones whose count depends on the content. *)
Definition content_keywords (keywords : list string) : list string :=
  List.filter
    (fun keyword => negb (contains (LlamaWrapper.lower_prompt "") keyword))
    keywords.

(** The prompt before the opening quote and after the closing one. *)
Definition prompt_opening : string :=
  take 206 (generate_classification_prompt "").

Definition prompt_closing : string :=
  drop 208 (generate_classification_prompt "").

(** *** Category names *)

Definition all_keywords : list string :=
  (news_keywords ++ educational_keywords ++ entertainment_keywords
     ++ commercial_keywords)%list.

(** *** The responses of the bridge *)

(** [s] between two double quotes. *)
Definition quoted (s : string) : string :=
  native_bridge.quote ++ s ++ native_bridge.quote.

(** The members every classification response carries, in their order. *)
Definition json_members (ok productive : bool) (confidence_text reason : string)
    (time : Z) : string :=
  quoted "success" ++ ":" ++ native_bridge.bool_text ok ++ ","
    ++ quoted "is_productive" ++ ":" ++ native_bridge.bool_text productive ++ ","
    ++ quoted "confidence" ++ ":" ++ confidence_text ++ ","
    ++ quoted "reason" ++ ":" ++ quoted reason ++ ","
    ++ quoted "processing_time_ms" ++ ":" ++ to_string time.

(** The texts of the five confidences of the heuristic classifier. *)
Definition confidence_texts : list (float * string) :=
  [ (f0_5, "0.500000"); (f0_6, "0.600000"); (f0_7, "0.700000");
    (f0_8, "0.800000"); (f0_9, "0.900000") ].

(** *** The text the patterns are searched in *)

(** No character of [s] is an upper-case letter. *)
Fixpoint no_capitals (s : string) : Prop :=
  match s with
  | EmptyString => True
  | String c r => isupper c = false /\ no_capitals r
  end.

(** *** Ties between category scores *)


End Vocabulary.

(** *** Tactics *)

(** Case analysis on floats and on the comparisons of their fields. *)
Ltac float_cases :=
  unfold Float32.ltb, Float32.leb, Float32.eqb, SFltb, SFleb, SFeqb, SFcompare,
    Float32.nonneg in *;
  repeat match goal with
         | x : Float32.float |- _ => destruct x as [[]|[]| |[] ? ?]
         end;
  try tauto; try discriminate; try reflexivity.

Ltac compare_cases :=
  repeat match goal with
         | H : context [Pos.compare_cont Eq ?a ?b] |- _ =>
             change (Pos.compare_cont Eq a b) with (Pos.compare a b) in H
         | |- context [Pos.compare_cont Eq ?a ?b] =>
             change (Pos.compare_cont Eq a b) with (Pos.compare a b)
         end;
  repeat match goal with
         | H : context [Z.compare ?a ?b] |- _ =>
             destruct (Z.compare_spec a b); subst
         | |- context [Z.compare ?a ?b] =>
             destruct (Z.compare_spec a b); subst
         | H : context [Pos.compare ?a ?b] |- _ =>
             destruct (Pos.compare_spec a b); subst
         | |- context [Pos.compare ?a ?b] =>
             destruct (Pos.compare_spec a b); subst
         end;
  try discriminate; try reflexivity; try lia.

(** Case analysis on two scores known to lie in a list of values. *)
Ltac score_cases :=
  let Hp := fresh in let Hu := fresh in
  intros Hp Hu; simpl in Hp, Hu;
  repeat (destruct Hp as [<- | Hp]; [|]); try contradiction;
  repeat (destruct Hu as [<- | Hu]; [|]); try contradiction.

(** The cases of one adjustment rule; [empty_r] and [clamped] are the
    lemmas on appending the empty string and on the clamp of a boost. *)
Ltac rule_cases empty_r clamped :=
  repeat split; intros;
  try reflexivity; try assumption; try lia;
  try (rewrite empty_r; reflexivity);
  try (now left); try (right; apply clamped).

(** * Properties *)

(** ** The order of the non-negative floats *)

Section FloatOrder.
Import Float32.

Lemma ltb_leb (a b : float) : ltb a b = true -> leb a b = true.
Proof.
  unfold ltb, leb, SFltb, SFleb.
  destruct (SFcompare a b) as [[]|]; intros; congruence.
Qed.

Lemma leb_refl (a : float) : nonneg a -> leb a a = true.
Proof. intros Ha. float_cases. compare_cases. Qed.

Lemma ltb_irrefl (a : float) : ltb a a = false.
Proof. float_cases; compare_cases. Qed.

Lemma not_ltb_leb (a b : float) :
  nonneg a -> nonneg b -> ltb a b = false -> leb b a = true.
Proof. intros Ha Hb H. float_cases; compare_cases. Qed.

Lemma ltb_not_leb (a b : float) : ltb a b = true -> leb b a = false.
Proof. intros H. float_cases; compare_cases. Qed.

Lemma leb_trans (a b c : float) :
  nonneg a -> nonneg b -> nonneg c ->
  leb a b = true -> leb b c = true -> leb a c = true.
Proof. intros Ha Hb Hc H1 H2. float_cases; compare_cases. Qed.

Lemma leb_antisym (a b : float) :
  nonneg a -> nonneg b -> leb a b = true -> leb b a = true -> a = b.
Proof. intros Ha Hb H1 H2. float_cases; compare_cases. Qed.

Lemma ltb_total (a b : float) :
  nonneg a -> nonneg b -> ltb a b = false -> ltb b a = false -> a = b.
Proof.
  intros Ha Hb H1 H2.
  apply leb_antisym; auto using not_ltb_leb.
Qed.

Lemma leb_ltb_trans (a b c : float) :
  nonneg a -> nonneg b -> nonneg c ->
  leb a b = true -> ltb b c = true -> ltb a c = true.
Proof. intros Ha Hb Hc H1 H2. float_cases; compare_cases. Qed.

Lemma max_nonneg (a b : float) : nonneg a -> nonneg b -> nonneg (max a b).
Proof. unfold max. destruct (ltb a b); auto. Qed.

Lemma max_ge_l (a b : float) : nonneg a -> nonneg b -> leb a (max a b) = true.
Proof.
  intros Ha Hb. unfold max. destruct (ltb a b) eqn:E.
  - now apply ltb_leb.
  - now apply leb_refl.
Qed.

Lemma max_ge_r (a b : float) : nonneg a -> nonneg b -> leb b (max a b) = true.
Proof.
  intros Ha Hb. unfold max. destruct (ltb a b) eqn:E.
  - now apply leb_refl.
  - now apply not_ltb_leb.
Qed.

End FloatOrder.

(** ** [int] counters *)

(** A value in the range of [int] is not changed by the wrap-around. *)
Lemma wrap_small (z : Z) : - 2^31 <= z < 2^31 -> Int32.wrap z = z.
Proof.
  intros H. unfold Int32.wrap. rewrite Z.mod_small; lia.
Qed.

(** ** Binary32 rounding: the upper-case fraction against one half *)

Section Binary32.
Import Float32.























End Binary32.

(** ** Searching in strings *)

Section StringSearch.
Import StdString.

Lemma starts_with_prefix (pat s : string) :
  starts_with pat s = true <-> exists post, s = pat ++ post.
Proof.
  revert s. induction pat as [|a pat IH]; intros s; simpl.
  - split; eauto.
  - destruct s as [|b s].
    + split; [discriminate | intros [post H]; discriminate].
    + rewrite andb_true_iff, IH. split.
      * intros [Hab [post ->]]. apply Ascii.eqb_eq in Hab. subst. eauto.
      * intros [post H]. injection H as -> ->.
        split; [apply Ascii.eqb_refl | eauto].
Qed.

Lemma find_some_occurs (s pat : string) (i : nat) :
  find s pat = Some i -> occurs_in pat s.
Proof.
  revert i. induction s as [|c s IH]; intros i; simpl.
  - destruct (starts_with pat "") eqn:E; [|discriminate].
    intros _. apply starts_with_prefix in E as [post ->].
    now exists "", post.
  - destruct (starts_with pat (String c s)) eqn:E.
    + intros _. apply starts_with_prefix in E as [post ->].
      now exists "", post.
    + destruct (find s pat) as [j|] eqn:F; [|discriminate].
      intros _. destruct (IH j eq_refl) as (pre & post & ->).
      now exists (String c pre), post.
Qed.

Lemma occurs_find_some (pre pat post : string) :
  exists i, find (pre ++ pat ++ post) pat = Some i.
Proof.
  induction pre as [|c pre [i IH]]; simpl.
  - assert (E : starts_with pat (pat ++ post) = true)
      by (apply starts_with_prefix; eauto).
    destruct (pat ++ post); simpl; rewrite E; eauto.
  - destruct (starts_with pat (String c (pre ++ pat ++ post))); eauto.
    rewrite IH. simpl. eauto.
Qed.

(** [find] reports a position exactly when the pattern occurs. *)
Lemma contains_occurs (text pat : string) :
  contains text pat = true <-> occurs_in pat text.
Proof.
  unfold contains. split.
  - destruct (find text pat) eqn:E; [|discriminate].
    intros _. eapply find_some_occurs; eauto.
  - intros (pre & post & ->).
    destruct (occurs_find_some pre pat post) as [i ->]. reflexivity.
Qed.

(** Appending, lengths and character-wise maps. *)
Lemma append_length (a b : string) :
  String.length (a ++ b) = (String.length a + String.length b)%nat.
Proof.
  induction a as [|c a IH]; [reflexivity|].
  change (S (String.length (a ++ b)) = S (String.length a + String.length b)).
  now rewrite IH.
Qed.

Lemma transform_append (f : ascii -> ascii) (a b : string) :
  transform f (a ++ b) = transform f a ++ transform f b.
Proof.
  induction a as [|c a IH]; [reflexivity|].
  change (String (f c) (transform f (a ++ b))
          = String (f c) (transform f a ++ transform f b)).
  now rewrite IH.
Qed.

End StringSearch.

(** ** The pattern scores of the heuristic classifier *)

Section PatternScores.
Import Float32 StdString content_utils.

Lemma score_loop (table : list (string * float)) (text : string) :
  positive_weights table ->
  forall init, nonneg init ->
  let m := fold_left (score_from text) table init in
  nonneg m /\
  leb init m = true /\
  (forall p w, In (p, w) table -> occurs_in p text -> leb w m = true) /\
  (m = init \/ exists p, In (p, m) table /\ occurs_in p text).
Proof.
  induction 1 as [|[p w] table [Hw Hpos] Htable IH]; intros init Hinit; simpl.
  - repeat split; auto using leb_refl; try (intros; contradiction).
  - set (next := score_from text init (p, w)).
    assert (Hnext : nonneg next).
    { unfold next, score_from. destruct (contains text (fst (p, w)));
        auto using max_nonneg. }
    assert (Hle : leb init next = true).
    { unfold next, score_from. destruct (contains text (fst (p, w)));
        auto using max_ge_l, leb_refl. }
    destruct (IH next Hnext) as (Hm & Hge & Hall & Hatt).
    split; [exact Hm|]. split; [apply (leb_trans init next); auto|]. split.
    + intros q v [E | Hin] Hocc.
      * injection E as <- <-.
        apply (leb_trans _ next); auto.
        unfold next, score_from. simpl.
        apply contains_occurs in Hocc. rewrite Hocc.
        now apply max_ge_r.
      * eauto.
    + destruct Hatt as [-> | (q & Hin & Hocc)]; [|eauto 6].
      unfold next, score_from. simpl.
      destruct (contains text p) eqn:E; [|now left].
      unfold Float32.max. destruct (ltb init w); [|now left].
      right. exists p. split; [now left | now apply contains_occurs].
Qed.

Lemma positive_weights_in (table : list (string * float)) p w :
  positive_weights table -> In (p, w) table ->
  nonneg w /\ ltb f0 w = true.
Proof.
  unfold positive_weights. rewrite List.Forall_forall.
  intros H Hin. exact (H (p, w) Hin).
Qed.

Lemma max_pattern_score_is_max (table : list (string * float)) (text : string) :
  positive_weights table ->
  is_max_weight table text (max_pattern_score table text).
Proof.
  intros Hpos.
  destruct (score_loop table text Hpos f0 I) as (Hm & _ & Hall & Hatt).
  fold (max_pattern_score table text) in Hm, Hall, Hatt.
  split; [exact Hall|].
  destruct Hatt as [E | ?]; [right | now left].
  split; [exact E|]. intros p w Hin Hocc.
  specialize (Hall p w Hin Hocc). rewrite E in Hall.
  destruct (positive_weights_in table p w Hpos Hin) as [_ Hlt].
  apply ltb_not_leb in Hlt. congruence.
Qed.

Lemma max_pattern_score_nonneg (table : list (string * float)) (text : string) :
  positive_weights table -> nonneg (max_pattern_score table text).
Proof. intros Hpos. apply (score_loop table text Hpos f0 I). Qed.

(** The score is [0.0f] or one of the weights of the table. *)
Lemma max_pattern_score_values (table : list (string * float)) (text : string) :
  positive_weights table ->
  max_pattern_score table text = f0 \/
  In (max_pattern_score table text) (map snd table).
Proof.
  intros Hpos.
  destruct (score_loop table text Hpos f0 I) as (_ & _ & _ & [E | (p & Hin & _)]).
  - now left.
  - right. apply in_map_iff. exists (p, max_pattern_score table text). auto.
Qed.

Lemma max_pattern_score_zero (table : list (string * float)) (text : string) :
  positive_weights table ->
  (max_pattern_score table text = f0 <-> no_match table text).
Proof.
  intros Hpos. split.
  - intros E. destruct (max_pattern_score_is_max table text Hpos) as [Hall _].
    intros p w Hin Hocc. specialize (Hall p w Hin Hocc). rewrite E in Hall.
    destruct (positive_weights_in table p w Hpos Hin) as [_ Hlt].
    apply ltb_not_leb in Hlt. congruence.
  - intros Hno.
    destruct (max_pattern_score_is_max table text Hpos) as [_ [(p & Hin & Hocc) | [E _]]].
    + exfalso. eapply Hno; eauto.
    + exact E.
Qed.

Lemma productive_weights : positive_weights productive_patterns.
Proof. repeat constructor. Qed.

Lemma unproductive_weights : positive_weights unproductive_patterns.
Proof. repeat constructor. Qed.

End PatternScores.

(** ** The keyword decision of [classify_with_heuristics] *)

Section KeywordDecision.
Import Float32 StdString content_utils.

(** Each score is [0.0f] or one of the four weights used in the tables. *)
Lemma productive_score_values (text : string) :
  In (max_pattern_score productive_patterns text) [f0; f0_6; f0_7; f0_8; f0_9].
Proof.
  destruct (max_pattern_score_values _ text productive_weights) as [-> | H].
  - now left.
  - simpl in H. simpl. intuition auto.
Qed.

Lemma unproductive_score_values (text : string) :
  In (max_pattern_score unproductive_patterns text) [f0; f0_6; f0_7; f0_8; f0_9].
Proof.
  destruct (max_pattern_score_values _ text unproductive_weights) as [-> | H].
  - now left.
  - simpl in H. simpl. intuition auto.
Qed.

Lemma keyword_decision_confidence (text : string) :
  In (v_confidence (keyword_decision text)) [f0_5; f0_6; f0_7; f0_8; f0_9].
Proof.
  unfold keyword_decision.
  generalize (productive_score_values text) (unproductive_score_values text).
  generalize (max_pattern_score productive_patterns text) as pm.
  generalize (max_pattern_score unproductive_patterns text) as um.
  intros um pm. score_cases; vm_compute; tauto.
Qed.

Lemma keyword_decision_cases (text : string) :
  let pm := max_pattern_score productive_patterns text in
  let um := max_pattern_score unproductive_patterns text in
  ltb um pm = true \/ ltb pm um = true \/
  (pm = um /\ ltb f0 pm = true) \/ (pm = f0 /\ um = f0).
Proof.
  intros pm um.
  generalize (productive_score_values text) (unproductive_score_values text).
  fold pm um. clearbody pm um.
  score_cases; vm_compute; tauto.
Qed.

End KeywordDecision.

Section HeuristicClassifier.
Import Float32 StdString content_utils.

Lemma ltb_asym (a b : float) : ltb a b = true -> ltb b a = false.
Proof.
  intros H. destruct (ltb b a) eqn:E; [|reflexivity].
  apply ltb_leb in E. apply ltb_not_leb in H. congruence.
Qed.

(** C10.  For every input string, the empty one included,
    [classify_with_heuristics] returns [success = true], no error message
    and a confidence among 0.5, 0.6, 0.7, 0.8 and 0.9, hence in the closed
    interval from 0.5 to 0.9; the empty text is classified (productive,
    0.6, "neutral_content") here and rejected only by the wrapper's
    [classify_content]. *)
Theorem classify_with_heuristics_total : forall (t : Z) (content : string),
  let r := classify_with_heuristics t content in
  success r = true /\
  error_message r = "" /\
  In (confidence r) [f0_5; f0_6; f0_7; f0_8; f0_9] /\
  leb f0_5 (confidence r) = true /\
  leb (confidence r) f0_9 = true /\
  classify_with_heuristics t "" =
    {| is_productive := true; confidence := f0_6; reason := "neutral_content";
       processing_time_ms := t; success := true; error_message := "" |} /\
  (forall this indeterminate t' context,
     success (LlamaWrapper.classify_content this indeterminate t t'
                "" context) = false).
Proof.
  intros t content r.
  assert (Hin : In (confidence r) [f0_5; f0_6; f0_7; f0_8; f0_9]).
  { unfold r.
    change (confidence (classify_with_heuristics t content))
      with (v_confidence (final_verdict content)).
    unfold final_verdict.
    generalize (keyword_decision_confidence (lower_content content)).
    generalize (keyword_decision (lower_content content)) as v.
    intros [b c s].
    unfold punctuation_override, caps_override.
    destruct (excessive_caps content), (excessive_punctuation content);
      cbn [v_confidence];
      intros [<- | [<- | [<- | [<- | [<- | []]]]]]; vm_compute; tauto. }
  split; [reflexivity|]. split; [reflexivity|]. split; [exact Hin|].
  split; [|split; [|split]].
  - revert Hin. generalize (confidence r).
    intros c [<- | [<- | [<- | [<- | [<- | []]]]]]; reflexivity.
  - revert Hin. generalize (confidence r).
    intros c [<- | [<- | [<- | [<- | [<- | []]]]]]; reflexivity.
  - reflexivity.
  - intros this ind t' context. unfold LlamaWrapper.classify_content.
    destruct (negb (LlamaWrapper.model_loaded_ this)); reflexivity.
Qed.

End HeuristicClassifier.

(** ** The surface-statistics overrides *)

Section SurfaceOverrides.
Import Float32 StdString content_utils.




Lemma keyword_decision_neutral (text : string) :
  no_match productive_patterns text -> no_match unproductive_patterns text ->
  keyword_decision text =
    {| v_is_productive := true; v_confidence := f0_6;
       v_reason := "neutral_content" |}.
Proof.
  intros Hp Hu.
  apply max_pattern_score_zero in Hp; [|apply productive_weights].
  apply max_pattern_score_zero in Hu; [|apply unproductive_weights].
  unfold keyword_decision. now rewrite Hp, Hu.
Qed.



(** *** A text of more than [2^24] letters *)












End SurfaceOverrides.

(** ** The category detector *)

Section CategoryDetector.
Import StdString ContentClassifier.

Lemma count_loop (text : string) (keywords : list string) (count : Z) :
  0 <= count -> count + Z.of_nat (length keywords) < 2^31 ->
  fold_left
    (fun count keyword =>
       if contains text keyword then Int32.incr count else count)
    keywords count
  = count + matching text keywords.
Proof.
  unfold matching. revert count.
  induction keywords as [|k keywords IH]; intros count H0 Hlen; simpl.
  - lia.
  - simpl length in Hlen. destruct (contains text k); simpl length.
    + unfold Int32.incr. rewrite wrap_small by lia. rewrite IH; lia.
    + rewrite IH; lia.
Qed.

Lemma count_keywords_matching (text : string) (keywords : list string) :
  Z.of_nat (length keywords) < 2^31 ->
  count_keywords text keywords = matching text keywords.
Proof.
  intros H. unfold count_keywords. rewrite count_loop; lia.
Qed.

Lemma matching_bounds (text : string) (keywords : list string) :
  0 <= matching text keywords <= Z.of_nat (length keywords).
Proof.
  unfold matching. split; [lia|].
  apply inj_le, List.filter_length_le.
Qed.

Lemma score_nonneg (content : string) :
  0 <= news_score content /\ 0 <= educational_score content /\
  0 <= entertainment_score content /\ 0 <= commercial_score content.
Proof.
  unfold news_score, educational_score, entertainment_score, commercial_score.
  rewrite !count_keywords_matching by (simpl; lia).
  repeat split; apply matching_bounds.
Qed.

Lemma determine_category_not_social (content : string) :
  determine_category content <> SOCIAL.
Proof.
  unfold determine_category, max_score.
  repeat match goal with
         | |- context [?a =? ?b] => destruct (Z.eqb_spec a b)
         end; try discriminate.
  lia.
Qed.



End CategoryDetector.

(** ** Context adjustment *)

Section ContextAdjustment.
Import Float32 StdString ContentClassifier.

Lemma append_empty_r (s : string) : s ++ "" = s.
Proof.
  induction s as [|a s IH]; [reflexivity|].
  change (String a (s ++ "") = String a s). now rewrite IH.
Qed.

Lemma append_assoc (a b c : string) : (a ++ b) ++ c = a ++ b ++ c.
Proof.
  induction a as [|x a IH]; [reflexivity|].
  change (String x ((a ++ b) ++ c) = String x (a ++ b ++ c)). now rewrite IH.
Qed.

(** An additive adjustment leaves the confidence at or below [1.0f],
    whatever it was before. *)
Lemma boost_clamped (result : ClassificationResult) (delta : float) (tag : string) :
  leb (confidence (boost result delta tag)) f1 = true.
Proof.
  unfold boost, Float32.min. cbn [confidence append_reason set_confidence].
  destruct (ltb (add (confidence result) delta) f1) eqn:E.
  - now apply ltb_leb.
  - reflexivity.
Qed.

Lemma boost_fields (result : ClassificationResult) (delta : float) (tag : string) :
  is_productive (boost result delta tag) = is_productive result /\
  reason (boost result delta tag) = reason result ++ tag /\
  success (boost result delta tag) = success result /\
  error_message (boost result delta tag) = error_message result /\
  processing_time_ms (boost result delta tag) = processing_time_ms result.
Proof. repeat split. Qed.

Lemma adjust_for_app_spec result context :
  let r := adjust_for_app result context in
  is_productive r = is_productive result /\
  reason r = reason result ++ app_tag (is_productive result) context /\
  same_or_clamped result r.
Proof.
  unfold adjust_for_app, app_tag, same_or_clamped.
  destruct (contains (app_package context) "linkedin"),
    (contains (app_package context) "tiktok"),
    (is_productive result) eqn:E; rule_cases append_empty_r boost_clamped.
Qed.

Lemma adjust_for_category_spec result context :
  let r := adjust_for_category result context in
  is_productive r = is_productive result /\
  reason r = reason result ++ category_tag (is_productive result) context /\
  same_or_clamped result r.
Proof.
  unfold adjust_for_category, category_tag, same_or_clamped.
  destruct (category context), (is_productive result) eqn:E; rule_cases append_empty_r boost_clamped.
Qed.

Lemma adjust_for_length_spec result context :
  let r := adjust_for_length result context in
  is_productive r = is_productive result /\
  reason r = reason result ++ length_tag (is_productive result) context /\
  (content_length context < 50 ->
     confidence r = mul (confidence result) f0_8) /\
  (50 <= content_length context -> same_or_clamped result r).
Proof.
  unfold adjust_for_length, length_tag, same_or_clamped.
  destruct (Z.ltb_spec (content_length context) 50),
    (Z.ltb_spec 500 (content_length context)),
    (is_productive result) eqn:E; rule_cases append_empty_r boost_clamped.
Qed.

(** C4 (amended).  For every base result and every context the three rules
    apply in the order application hint, detected category, content
    length; none changes the verdict (nor [success], the error message or
    the processing time); each appends its suffix to the reason; each
    additive adjustment leaves the confidence at or below 1.0, while the
    short-content rule multiplies the confidence by 0.8 without clamping.
    With category Educational and a productive base result the reason gets
    the suffix "_educational_boost" (between the other two suffixes), and
    when moreover the base confidence is 0.5, the application is not a
    "linkedin" one and the content length lies between 50 and 500, the
    confidence becomes 0.65 and the reason is the base reason followed by
    "_educational_boost". *)
Theorem apply_context_adjustments_correct :
  forall (result : ClassificationResult) (context : ClassificationContext),
  let r1 := adjust_for_app result context in
  let r2 := adjust_for_category r1 context in
  let r3 := adjust_for_length r2 context in
  let p := is_productive result in
  apply_context_adjustments result context = r3 /\
  (is_productive r3 = p /\ success r3 = success result /\
   error_message r3 = error_message result /\
   processing_time_ms r3 = processing_time_ms result) /\
  (reason r1 = reason result ++ app_tag p context /\
   reason r2 = reason r1 ++ category_tag p context /\
   reason r3 = reason r2 ++ length_tag p context /\
   reason r3 = reason result ++ app_tag p context ++ category_tag p context
                 ++ length_tag p context) /\
  (same_or_clamped result r1 /\ same_or_clamped r1 r2 /\
   (50 <= content_length context -> same_or_clamped r2 r3) /\
   (content_length context < 50 -> confidence r3 = mul (confidence r2) f0_8)) /\
  (category context = EDUCATIONAL -> p = true ->
   reason r3 = reason result ++ app_tag p context ++ "_educational_boost"
                 ++ length_tag p context) /\
  (category context = EDUCATIONAL -> p = true -> confidence result = f0_5 ->
   contains (app_package context) "linkedin" = false ->
   50 <= content_length context <= 500 ->
   confidence r3 = f0_65 /\ reason r3 = reason result ++ "_educational_boost").
Proof.
  intros result context r1 r2 r3 p.
  destruct (adjust_for_app_spec result context) as (Hp1 & Hr1 & Hc1).
  destruct (adjust_for_category_spec r1 context) as (Hp2 & Hr2 & Hc2).
  destruct (adjust_for_length_spec r2 context) as (Hp3 & Hr3 & Hs3 & Hc3).
  fold r1 in Hp1, Hr1, Hc1. fold r2 in Hp2, Hr2, Hc2.
  fold r3 in Hp3, Hr3, Hs3, Hc3. fold p in Hr1.
  assert (E1 : is_productive r1 = p) by exact Hp1.
  assert (E2 : is_productive r2 = p) by congruence.
  rewrite E1 in Hr2. rewrite E2 in Hr3.
  assert (Hreason : reason r3 = reason result ++ app_tag p context
                      ++ category_tag p context ++ length_tag p context).
  { rewrite Hr3, Hr2, Hr1, !append_assoc. reflexivity. }
  split; [reflexivity|].
  split.
  { split; [congruence|].
    unfold r3, r2, r1, adjust_for_length, adjust_for_category, adjust_for_app.
    repeat match goal with
           | |- context [if ?b then _ else _] => destruct b
           | |- context [match category ?c with _ => _ end] =>
               destruct (category c)
           end; repeat split. }
  split; [auto|]. split; [auto|]. split.
  - intros Hcat Hprod. rewrite Hreason. unfold category_tag.
    now rewrite Hcat, Hprod.
  - intros Hcat Hprod Hconf Happ [Hlo Hhi].
    assert (Hb : is_productive result = true) by exact Hprod.
    assert (Hr1' : r1 = result).
    { unfold r1, adjust_for_app. rewrite Happ, Hb.
      destruct (contains (app_package context) "tiktok"); reflexivity. }
    assert (Hr2' : r2 = boost result f0_15 "_educational_boost").
    { unfold r2, adjust_for_category. rewrite Hr1', Hcat, Hb. reflexivity. }
    assert (Hr : r3 = boost result f0_15 "_educational_boost").
    { unfold r3, adjust_for_length. rewrite Hr2'.
      destruct (Z.ltb_spec (content_length context) 50); try lia.
      destruct (Z.ltb_spec 500 (content_length context)); try lia.
      reflexivity. }
    rewrite Hr. split; [|reflexivity].
    unfold boost. cbn [confidence append_reason set_confidence].
    rewrite Hconf. reflexivity.
Qed.

(** A productive base result of confidence 0.5, adjusted for a context of
    category Educational whose content length is 10, has a confidence
    different from 0.65 (it is 0.65 scaled by 0.8). *)
Lemma educational_boost_short_content :
  let base := {| is_productive := true; confidence := f0_5;
                 reason := "mixed_content"; processing_time_ms := 0;
                 success := true; error_message := "" |} in
  let context := {| app_package := ""; category := EDUCATIONAL;
                    language := "en"; content_length := 10 |} in
  confidence (apply_context_adjustments base context) = mul f0_65 f0_8 /\
  confidence (apply_context_adjustments base context) <> f0_65 /\
  reason (apply_context_adjustments base context)
    = "mixed_content_educational_boost_short_content".
Proof. vm_compute. repeat split. discriminate. Qed.

Lemma apply_context_adjustments_witness :
  let base := {| is_productive := true; confidence := f0_5;
                 reason := "mixed_content"; processing_time_ms := 0;
                 success := true; error_message := "" |} in
  let context := {| app_package := "com.example.reader"; category := EDUCATIONAL;
                    language := "en"; content_length := 120 |} in
  confidence (apply_context_adjustments base context) = f0_65 /\
  reason (apply_context_adjustments base context)
    = "mixed_content_educational_boost".
Proof.
  intros base context.
  destruct (apply_context_adjustments_correct base context)
    as (E & _ & _ & _ & _ & H).
  rewrite E. apply H; try reflexivity. simpl. lia.
Defined.

End ContextAdjustment.

(** ** Normalisation of the input text *)

Section Normalisation.
Import StdString content_utils.

(** *** White space after the collapse *)

Lemma replace_ws_runs_spaces (in_run : bool) (s : string) :
  ws_is_space (replace_ws_runs in_run s).
Proof.
  revert in_run. induction s as [|c s IH]; intros in_run; simpl; [exact I|].
  destruct (isspace c) eqn:E.
  - destruct in_run; [apply IH|]. simpl. split; [reflexivity | apply IH].
  - simpl. split; [congruence | apply IH].
Qed.

Lemma strip_leading_spaces (s : string) :
  ws_is_space s -> ws_is_space (strip_leading s).
Proof.
  induction s as [|c s IH]; simpl; [auto|].
  intros [Hc Hs]. destruct (isspace c) eqn:E; [auto|].
  simpl. rewrite E. split; [discriminate | assumption].
Qed.

Lemma mem_trim_set (c : ascii) :
  (isspace c = true -> c = " "%char) -> mem c trim_set = isspace c.
Proof.
  intros H. destruct (isspace c) eqn:E.
  - now rewrite (H eq_refl).
  - unfold trim_set, mem.
    repeat match goal with
           | |- context [Ascii.eqb c ?d] =>
               destruct (Ascii.eqb_spec c d);
               [subst c; vm_compute in E; discriminate|]
           end.
    reflexivity.
Qed.

(** *** The two erasures of [prepare_content_for_analysis] trim *)

Lemma erase_front_strip (s : string) :
  ws_is_space s ->
  erase_front s (find_first_not_of s trim_set) = strip_leading s.
Proof.
  induction s as [|c s IH]; [reflexivity|].
  intros [Hc Hs]. cbn [find_first_not_of strip_leading].
  rewrite (mem_trim_set c Hc).
  destruct (isspace c); [|reflexivity].
  rewrite <- (IH Hs).
  destruct (find_first_not_of s trim_set); reflexivity.
Qed.

Lemma find_last_not_of_nonempty (s : string) (i : nat) :
  find_last_not_of s trim_set = Some i -> take (S i) s <> EmptyString.
Proof. destruct s; simpl; [discriminate | discriminate]. Qed.

Lemma erase_after_strip (s : string) :
  ws_is_space s ->
  erase_after s (find_last_not_of s trim_set) = strip_trailing s.
Proof.
  induction s as [|c s IH]; [reflexivity|].
  intros [Hc Hs]. specialize (IH Hs).
  cbn [find_last_not_of strip_trailing].
  rewrite (mem_trim_set c Hc). rewrite <- IH.
  destruct (find_last_not_of s trim_set) as [i|] eqn:E.
  - pose proof (find_last_not_of_nonempty s i E) as Hne.
    cbn [erase_after take] in *.
    destruct s as [|d s']; [discriminate E|].
    reflexivity.
  - cbn [erase_after take]. destruct (isspace c); reflexivity.
Qed.

(** *** Lower-casing commutes with the other steps *)


Lemma tolower_space (c : ascii) : isspace c = true -> tolower c = c.
Proof.
  destruct c as [[] [] [] [] [] [] [] []]; intros H;
    (reflexivity || discriminate H).
Qed.







Lemma prepare_content_for_analysis_steps (raw_content : string) :
  prepare_content_for_analysis raw_content
  = cap_length (strip_trailing (strip_leading (regex_replace_ws raw_content))).
Proof.
  unfold prepare_content_for_analysis.
  pose proof (replace_ws_runs_spaces false raw_content) as Hws.
  fold (regex_replace_ws raw_content) in Hws.
  rewrite (erase_front_strip _ Hws).
  rewrite (erase_after_strip _ (strip_leading_spaces _ Hws)).
  reflexivity.
Qed.




End Normalisation.

(** ** The model file validator *)

Section Validator.
Import ModelLoader.

Lemma bytes_eqb_eq (a b : list Byte.byte) : bytes_eqb a b = true <-> a = b.
Proof.
  revert b. induction a as [|x a IH]; intros [|y b]; simpl;
    try (split; (reflexivity || discriminate)).
  rewrite andb_true_iff, IH. split.
  - intros [Hxy ->]. apply Byte.byte_dec_bl in Hxy. now subst.
  - intros E. injection E as -> ->. split; [|reflexivity].
    now apply Byte.byte_dec_lb.
Qed.

(** C7.  For every file system and path, [validate_model_file] returns
    true exactly when the file exists and can be read, has at least 1024
    bytes and begins with the four bytes "GGUF".  A file of 500 bytes is
    rejected whatever its bytes are, and a file of 1025 bytes that begins
    with the magic number is accepted. *)
Theorem validate_model_file_correct :
  forall (fs : FileSystem) (filepath : string),
  (validate_model_file fs filepath = true <->
     exists data, files fs !! filepath = Some data /\
                  (1024 <= length data)%nat /\
                  firstn 4 data = magic) /\
  (files fs !! filepath = None -> validate_model_file fs filepath = false) /\
  (forall data, files fs !! filepath = Some data ->
     (length data < 1024)%nat -> validate_model_file fs filepath = false) /\
  (forall data, files fs !! filepath = Some data ->
     firstn 4 data <> magic -> validate_model_file fs filepath = false) /\
  (forall data, files fs !! filepath = Some data ->
     length data = 500%nat -> validate_model_file fs filepath = false) /\
  (forall data, files fs !! filepath = Some data ->
     length data = 1025%nat -> firstn 4 data = magic ->
     validate_model_file fs filepath = true).
Proof.
  intros fs filepath.
  assert (Hiff : validate_model_file fs filepath = true <->
                 exists data, files fs !! filepath = Some data /\
                              (1024 <= length data)%nat /\
                              firstn 4 data = magic).
  { unfold validate_model_file.
    destruct (files fs !! filepath) as [data|].
    - destruct (Z.ltb_spec (Z.of_nat (length data)) 1024) as [Hlt | Hge].
      + split; [discriminate|]. intros (d & E & Hlen & _).
        injection E as <-. lia.
      + destruct (bytes_eqb (firstn 4 data) magic) eqn:Hm; simpl.
        * apply bytes_eqb_eq in Hm. split; [|reflexivity].
          intros _. exists data. repeat split; [lia | exact Hm].
        * split; [discriminate|]. intros (d & E & _ & Hmagic).
          injection E as <-. apply bytes_eqb_eq in Hmagic. congruence.
    - split; [discriminate|]. intros (d & E & _). discriminate. }
  assert (Hnot : forall P : Prop,
            (P -> ~ exists data, files fs !! filepath = Some data /\
                                 (1024 <= length data)%nat /\
                                 firstn 4 data = magic) ->
            P -> validate_model_file fs filepath = false).
  { intros P HP p. destruct (validate_model_file fs filepath) eqn:E; [|reflexivity].
    exfalso. apply (HP p). now apply Hiff. }
  split; [exact Hiff|]. repeat split.
  - apply Hnot. intros E (d & E' & _). congruence.
  - intros data E Hlen. revert Hlen. apply Hnot.
    intros Hlen (d & E' & Hd & _). rewrite E in E'. injection E' as <-. lia.
  - intros data E Hm. revert Hm. apply Hnot.
    intros Hm (d & E' & _ & Hd). rewrite E in E'. injection E' as <-. auto.
  - intros data E Hlen. revert Hlen. apply Hnot.
    intros Hlen (d & E' & Hd & _). rewrite E in E'. injection E' as <-. lia.
  - intros data E Hlen Hm. apply Hiff. exists data. repeat split; auto. lia.
Qed.

Lemma validate_model_file_witness :
  let small := (magic ++ repeat Byte.x00 496)%list in
  let large := (magic ++ repeat Byte.x00 1021)%list in
  let fs := {| files := {[ "small.gguf" := small; "large.gguf" := large ]};
               creatable := fun _ => false |} in
  (length small = 500%nat /\ validate_model_file fs "small.gguf" = false) /\
  (length large = 1025%nat /\ validate_model_file fs "large.gguf" = true) /\
  validate_model_file fs "missing.gguf" = false.
Proof.
  intros small large fs.
  destruct (validate_model_file_correct fs "small.gguf") as (_ & _ & _ & _ & Hs & _).
  destruct (validate_model_file_correct fs "large.gguf") as (_ & _ & _ & _ & _ & Hl).
  destruct (validate_model_file_correct fs "missing.gguf") as (_ & Hm & _).
  split; [split; [reflexivity | apply (Hs small); reflexivity]|].
  split; [split; [reflexivity | apply (Hl large); reflexivity]|].
  apply Hm. reflexivity.
Defined.


End Validator.

(** ** The life cycle of the fallback wrapper *)

Section Wrapper.
Import Float32 LlamaWrapper.

(** Unloading is idempotent and always leaves the wrapper unloaded. *)
Lemma unload_model_idempotent (this : Impl) :
  is_model_loaded (unload_model this) = false /\
  unload_model (unload_model this) = unload_model this.
Proof.
  unfold unload_model, is_model_loaded.
  destruct this as [[] available config]; simpl; split; reflexivity.
Qed.

(** C6 (amended).  In the fallback build [load_model] returns true exactly
    when the file at the configured path can be opened for reading,
    whether it is empty or not; exactly in that case it sets the loaded
    flag; otherwise it returns false and leaves the flag as it was, so that
    an unloaded wrapper stays unloaded.  The configuration is recorded in
    both cases. *)
Theorem load_model_correct :
  forall (fs : FileSystem) (this : Impl) (config : ModelConfig),
  let this' := fst (load_model fs this config) in
  let ok := snd (load_model fs this config) in
  (ok = true <-> exists data, files fs !! model_path config = Some data) /\
  (ok = true -> is_model_loaded this' = true) /\
  (ok = false -> is_model_loaded this' = is_model_loaded this) /\
  (is_model_loaded this = false -> is_model_loaded this' = ok) /\
  model_config_ this' = config /\
  llama_available_ this' = llama_available_ this.
Proof.
  intros fs this config. unfold load_model, ifstream_good, is_model_loaded.
  destruct (files fs !! model_path config) as [data|]; simpl.
  - repeat split; eauto; discriminate.
  - repeat split; try discriminate; auto.
    intros [data H]. discriminate.
Qed.

(** An empty file that can be read is loaded. *)
Lemma load_model_empty_file :
  let fs := {| files := {[ "model.gguf" := [] ]}; creatable := fun _ => false |} in
  let config := {| model_path := "model.gguf"; n_ctx := 2048; n_threads := 4;
                   temperature := f0_1; top_k := 1; top_p := f0_1;
                   use_mmap := true; use_mlock := false; n_gpu_layers := 0 |} in
  files fs !! "model.gguf" = Some [] /\
  snd (load_model fs new_Impl config) = true /\
  is_model_loaded (fst (load_model fs new_Impl config)) = true.
Proof. vm_compute. repeat split. Qed.

(** C2 (amended).  For every state, text and context, [classify_content]
    fails ([success = false]) exactly when the model is not loaded or the
    text is empty.  When the model is not loaded the result carries the
    error message "Model not loaded"; when it is loaded and the text is
    empty the error message is "Empty content"; in both cases the reason
    is empty and the verdict and the confidence are the indeterminate
    values of a default-initialised result: nothing is scored.  In every
    other case the result is that of [classify_with_heuristics] with the
    elapsed time of the call, and [success] is true. *)
Theorem classify_content_correct :
  forall (this : Impl) (indeterminate : ClassificationResult)
         (heuristics_time total_time : Z) (content context : string),
  let r := classify_content this indeterminate heuristics_time total_time
             content context in
  (success r = false <-> model_loaded_ this = false \/ content = "") /\
  (model_loaded_ this = false ->
   r = {| is_productive := is_productive indeterminate;
          confidence := confidence indeterminate;
          reason := "";
          processing_time_ms := processing_time_ms indeterminate;
          success := false;
          error_message := "Model not loaded" |}) /\
  (model_loaded_ this = true -> content = "" ->
   r = {| is_productive := is_productive indeterminate;
          confidence := confidence indeterminate;
          reason := "";
          processing_time_ms := processing_time_ms indeterminate;
          success := false;
          error_message := "Empty content" |}) /\
  (model_loaded_ this = true -> content <> "" ->
   success r = true /\
   r = set_processing_time_ms
         (content_utils.classify_with_heuristics heuristics_time content)
         total_time).
Proof.
  intros this ind t1 t2 content context r. unfold r, classify_content.
  destruct (model_loaded_ this); simpl negb; cbv iota.
  - destruct content as [|c content]; simpl empty; cbv iota.
    + repeat split; intros; try discriminate; try congruence; auto.
    + repeat split; intros; try discriminate; try congruence; auto.
      destruct H; discriminate.
  - repeat split; intros; try discriminate; auto.
Qed.

(** On an unloaded wrapper the error message is "Model not loaded", with
    a capital letter, and the reason is empty: neither is the string
    "model not loaded".  Likewise for "Empty content". *)
Lemma classify_content_messages :
  let config := default_ModelConfig in
  let junk := {| is_productive := true; confidence := f0; reason := "junk";
                 processing_time_ms := 0; success := true;
                 error_message := "junk" |} in
  let unloaded := new_Impl in
  let loaded := {| model_loaded_ := true; llama_available_ := false;
                   model_config_ := config |} in
  error_message (classify_content unloaded junk 0 0 "some text" "")
    = "Model not loaded" /\
  error_message (classify_content unloaded junk 0 0 "some text" "")
    <> "model not loaded" /\
  reason (classify_content unloaded junk 0 0 "some text" "")
    <> "model not loaded" /\
  error_message (classify_content loaded junk 0 0 "" "") = "Empty content" /\
  error_message (classify_content loaded junk 0 0 "" "") <> "empty content" /\
  reason (classify_content loaded junk 0 0 "" "") <> "empty content".
Proof. vm_compute. repeat split; discriminate. Qed.

End Wrapper.

(** ** The acquisition run *)

Section Acquisition.
Import Float32 StdString ModelLoader.

Context {Caller : Type}.

Lemma download_loop_events (fuel : nat)
      (callback : LoadProgress -> Caller -> Caller) (caller : Caller) :
  (12 <= fuel)%nat ->
  download_loop fuel 0 (Some callback) caller
  = Some (fold_left (fun s p => callback p s) (map downloading percentages) caller).
Proof.
  intros H. do 12 (destruct fuel as [|fuel]; [lia|]). reflexivity.
Qed.

Lemma download_loop_silent (fuel : nat) (caller : Caller) :
  (12 <= fuel)%nat ->
  download_loop fuel 0 None caller = Some caller.
Proof.
  intros H. do 12 (destruct fuel as [|fuel]; [lia|]). reflexivity.
Qed.

(** C9 (amended).  A run of the download task, given enough fuel for the
    twelve tests of its loop condition, terminates; it calls the callback
    on the thirteen events [events success] in order, where [success]
    tells whether the placeholder file could be created, and returns
    [success].  The progress values of these events are non-decreasing
    (the first two are both 0.0 and the last two both 1.0, so they are not
    strictly increasing), lie between 0.0 and 1.0, and exactly the last
    event is terminal, with status Loaded on success and Error otherwise.
    Without a callback no event is delivered. *)
Theorem download_model_async_events :
  forall (fuel : nat) (fs : FileSystem) (model_info : ModelInfo)
         (target_path : string)
         (callback : LoadProgress -> Caller -> Caller) (caller : Caller),
  (12 <= fuel)%nat ->
  let fs' := fst (create_placeholder_model fs target_path) in
  let success := snd (create_placeholder_model fs target_path) in
  download_model_async fuel fs model_info target_path (Some callback) caller
    = Some (fs', fold_left (fun s p => callback p s) (events success) caller,
            success) /\
  download_model_async fuel fs model_info target_path None caller
    = Some (fs', caller, success) /\
  length (events success) = 13%nat /\
  increasing false (map progress (events success)) = true /\
  increasing true (map progress (map downloading percentages)) = true /\
  Forall (fun p => leb f0 (progress p) = true /\ leb (progress p) f1 = true)
         (events success) /\
  map is_terminal (events success)
    = (repeat false 12 ++ [true])%list /\
  status (List.last (events success) starting)
    = (if success then LOADED else ERROR).
Proof.
  intros fuel fs model_info target_path callback caller Hfuel fs' success.
  unfold download_model_async.
  rewrite download_loop_events, download_loop_silent by exact Hfuel.
  subst fs' success.
  destruct (create_placeholder_model fs target_path) as [fs' success].
  cbn [fst snd].
  split; [reflexivity|]. split; [reflexivity|].
  split; [reflexivity|].
  split; [destruct success; vm_compute; reflexivity|].
  split; [vm_compute; reflexivity|].
  split; [|split; destruct success; reflexivity].
  unfold events, percentages. cbn [map app].
  repeat (constructor; [split; destruct success; vm_compute; reflexivity|]).
  constructor.
Qed.

End Acquisition.

(** A successful run observed by a recording callback: the progress
    values delivered are not strictly increasing, since the value 0.0 is
    delivered twice, and so is 1.0. *)
Lemma download_progress_repeats :
  let fs := {| files := ∅; creatable := fun _ => true |} in
  let model_info := {| ModelLoader.name := "gemma-270m-q4"; ModelLoader.url := "";
                       ModelLoader.filename := "gemma-3-270m-it-Q4_K_M.gguf";
                       ModelLoader.size_bytes := 150 * 1024 * 1024;
                       ModelLoader.checksum := "";
                       ModelLoader.description := "" |} in
  let run := ModelLoader.download_model_async 12 fs model_info "model.gguf"
               (Some record_event) [] in
  let delivered :=
    match run with
    | Some (_, trace, _) => map ModelLoader.progress trace
    | None => []
    end in
  firstn 2 delivered = [Float32.f0; Float32.f0] /\
  skipn 11 delivered = [Float32.f1; Float32.f1] /\
  increasing true delivered = false /\
  increasing false delivered = true.
Proof. vm_compute. repeat split. Qed.

Lemma download_model_async_events_witness :
  let fs := {| files := ∅; creatable := fun _ => true |} in
  let model_info := {| ModelLoader.name := "gemma-270m-q4"; ModelLoader.url := "";
                       ModelLoader.filename := "gemma-3-270m-it-Q4_K_M.gguf";
                       ModelLoader.size_bytes := 150 * 1024 * 1024;
                       ModelLoader.checksum := "";
                       ModelLoader.description := "" |} in
  (12 <= 12)%nat /\
  match ModelLoader.download_model_async 12 fs model_info "model.gguf"
          (Some record_event) [] with
  | Some (_, trace, ok) => trace = events true /\ ok = true
  | None => False
  end.
Proof.
  intros fs model_info. split; [lia|].
  destruct (download_model_async_events 12 fs model_info "model.gguf"
              record_event [] ltac:(lia)) as (E & _).
  rewrite E. split; reflexivity.
Defined.

(** ** The shape of a prepared text *)

Section PreparedContent.
Import StdString content_utils.

Lemma not_space_none : not_space None.
Proof. intros c H. discriminate. Qed.

Lemma not_space_some (c : ascii) : isspace c = false -> not_space (Some c).
Proof. intros H d [= <-]. exact H. Qed.

Lemma replace_ws_runs_single (in_run : bool) (s : string) :
  single_spaced (replace_ws_runs in_run s) /\
  (in_run = true -> not_space (first_char (replace_ws_runs in_run s))).
Proof.
  revert in_run. induction s as [|c s IH]; intros in_run.
  - split; [exact I | intros _; apply not_space_none].
  - cbn [replace_ws_runs]. destruct (isspace c) eqn:E.
    + destruct in_run.
      * apply IH.
      * split; [|discriminate]. cbn [single_spaced]. split.
        -- intros _. split; [reflexivity | now apply IH].
        -- apply IH.
    + split.
      * cbn [single_spaced]. split; [congruence | apply IH].
      * intros _. now apply not_space_some.
Qed.

Lemma single_spaced_strip_leading (s : string) :
  single_spaced s -> single_spaced (strip_leading s).
Proof.
  induction s as [|c s IH]; [auto|].
  intros H. cbn [strip_leading]. destruct (isspace c); [apply IH, H | exact H].
Qed.

Lemma first_char_strip_trailing (s : string) (d : ascii) (r : string) :
  strip_trailing s = String d r -> first_char s = Some d.
Proof.
  destruct s as [|e s]; [discriminate|]. cbn [strip_trailing first_char].
  destruct (strip_trailing s); [destruct (isspace e)|]; congruence.
Qed.

Lemma single_spaced_strip_trailing (s : string) :
  single_spaced s -> single_spaced (strip_trailing s).
Proof.
  induction s as [|c s IH]; [auto|].
  intros [Hc Hs]. specialize (IH Hs). cbn [strip_trailing].
  destruct (strip_trailing s) as [|d r] eqn:E.
  - destruct (isspace c) eqn:Ec; [exact I|].
    cbn [single_spaced]. split; [congruence | exact I].
  - change (single_spaced (String c (String d r))) with
      ((isspace c = true -> c = " "%char /\ not_space (Some d)) /\
       single_spaced (String d r)).
    split; [|exact IH].
    intros Hsp. destruct (Hc Hsp) as [-> Hn]. split; [reflexivity|].
    now rewrite <- (first_char_strip_trailing s d r E).
Qed.

Lemma single_spaced_take (n : nat) (s : string) :
  single_spaced s -> single_spaced (take n s).
Proof.
  revert s. induction n as [|n IH]; intros [|c s]; try (intros; exact I).
  intros [Hc Hs]. cbn [take single_spaced]. split; [|now apply IH].
  intros Hsp. destruct (Hc Hsp) as [-> Hn]. split; [reflexivity|].
  destruct n, s; try apply not_space_none; exact Hn.
Qed.

Lemma first_char_append (a b : string) :
  first_char (a ++ b) = match a with EmptyString => first_char b | String c _ => Some c end.
Proof. destruct a; reflexivity. Qed.

Lemma single_spaced_append (a b : string) :
  single_spaced a -> single_spaced b -> not_space (first_char b) ->
  single_spaced (a ++ b).
Proof.
  intros Ha Hb Hf. induction a as [|c a IH]; [exact Hb|].
  destruct Ha as [Hc Ha].
  change (String c a ++ b) with (String c (a ++ b)).
  cbn [single_spaced]. split; [|now apply IH].
  intros Hsp. destruct (Hc Hsp) as [-> Hn]. split; [reflexivity|].
  rewrite first_char_append. destruct a; [exact Hf | exact Hn].
Qed.

Lemma last_char_append (a b : string) :
  b <> EmptyString -> last_char (a ++ b) = last_char b.
Proof.
  intros Hb. induction a as [|c a IH]; [reflexivity|].
  change (String c a ++ b) with (String c (a ++ b)).
  cbn [last_char]. destruct (a ++ b) eqn:E; [|exact IH].
  destruct a; [|discriminate]. now destruct b.
Qed.

Lemma first_char_strip_leading (s : string) :
  not_space (first_char (strip_leading s)).
Proof.
  induction s as [|c s IH]; [apply not_space_none|].
  cbn [strip_leading]. destruct (isspace c) eqn:E; [exact IH|].
  now apply not_space_some.
Qed.

Lemma strip_trailing_first (s : string) :
  not_space (first_char s) -> not_space (first_char (strip_trailing s)).
Proof.
  intros H. destruct (strip_trailing s) as [|d r] eqn:E; [apply not_space_none|].
  cbn [first_char]. now rewrite <- (first_char_strip_trailing s d r E).
Qed.

Lemma strip_trailing_last (s : string) :
  not_space (last_char (strip_trailing s)).
Proof.
  induction s as [|c s IH]; [apply not_space_none|].
  cbn [strip_trailing]. destruct (strip_trailing s) as [|d r].
  - destruct (isspace c) eqn:E; [apply not_space_none|].
    now apply not_space_some.
  - exact IH.
Qed.

Lemma prefix_length_le (n : nat) (s : string) :
  (String.length (take n s) <= n)%nat.
Proof.
  revert s. induction n as [|n IH]; intros [|c s]; cbn [take String.length]; try lia.
  specialize (IH s). lia.
Qed.

Lemma prefix_length (n : nat) (s : string) :
  (n <= String.length s)%nat -> String.length (take n s) = n.
Proof.
  revert s. induction n as [|n IH]; intros [|c s]; cbn [take String.length];
    try lia.
  intros H. rewrite IH; lia.
Qed.

Lemma prefix_of_append (a b : string) :
  take (String.length a) (a ++ b) = a.
Proof.
  induction a as [|c a IH]; [now destruct b|].
  change (String c a ++ b) with (String c (a ++ b)).
  cbn [String.length take]. now rewrite IH.
Qed.

Lemma cap_length_shape (s : string) :
  single_spaced s -> trimmed s ->
  (String.length (cap_length s) <= 503)%nat /\
  single_spaced (cap_length s) /\ trimmed (cap_length s) /\
  cap_length (cap_length s) = cap_length s.
Proof.
  intros Hs [Hf Hl]. unfold cap_length, max_length, truncation_marker.
  destruct (Nat.ltb_spec 500 (String.length s)) as [Hlong | Hshort].
  - assert (Hlen : String.length (take 500 s) = 500%nat)
      by (apply prefix_length; lia).
    split; [rewrite append_length, Hlen; cbn [String.length]; lia|].
    split.
    { apply single_spaced_append.
      - now apply single_spaced_take.
      - cbn. repeat split; discriminate.
      - now apply not_space_some. }
    split.
    { split.
      - rewrite first_char_append. destruct s as [|c s]; [cbn in Hlong; lia|].
        exact Hf.
      - rewrite last_char_append by discriminate. now apply not_space_some. }
    rewrite append_length, Hlen. cbn [String.length].
    destruct (Nat.ltb_spec 500 (500 + 3)) as [_ | H]; [|lia].
    rewrite <- Hlen at 1. now rewrite prefix_of_append.
  - split; [lia|]. split; [exact Hs|]. split; [split; assumption|].
    destruct (Nat.ltb_spec 500 (String.length s)); [lia | reflexivity].
Qed.

Lemma replace_ws_runs_fixed (in_run : bool) (s : string) :
  single_spaced s -> (in_run = true -> not_space (first_char s)) ->
  replace_ws_runs in_run s = s.
Proof.
  revert in_run. induction s as [|c s IH]; intros in_run; [reflexivity|].
  intros [Hc Hs] Hrun. cbn [replace_ws_runs]. destruct (isspace c) eqn:E.
  - destruct (Hc eq_refl) as [-> Hn]. destruct in_run.
    + specialize (Hrun eq_refl " "%char eq_refl). discriminate.
    + now rewrite IH.
  - rewrite IH; [reflexivity | exact Hs | discriminate].
Qed.

Lemma strip_leading_fixed (s : string) :
  not_space (first_char s) -> strip_leading s = s.
Proof.
  destruct s as [|c s]; [reflexivity|]. intros H.
  cbn [strip_leading]. now rewrite (H c eq_refl).
Qed.

Lemma strip_trailing_fixed (s : string) :
  not_space (last_char s) -> strip_trailing s = s.
Proof.
  induction s as [|c s IH]; [reflexivity|].
  intros H. cbn [strip_trailing]. destruct s as [|d r].
  - cbn [strip_trailing]. now rewrite (H c eq_refl).
  - rewrite IH; [reflexivity | exact H].
Qed.

Lemma trimmed_collapsed (raw : string) :
  let t := strip_trailing (strip_leading (regex_replace_ws raw)) in
  single_spaced t /\ trimmed t.
Proof.
  intros t. split.
  - apply single_spaced_strip_trailing, single_spaced_strip_leading.
    apply replace_ws_runs_single.
  - split.
    + apply strip_trailing_first, first_char_strip_leading.
    + apply strip_trailing_last.
Qed.

Lemma prompt_length (content : string) :
  String.length (generate_classification_prompt content)
  = (225 + String.length (prepare_content_for_analysis content))%nat.
Proof.
  unfold generate_classification_prompt.
  repeat (rewrite append_length || cbn [String.length]).
  lia.
Qed.

(** X1.  For every raw text the prepared text has at most 503 characters
    (500 and the marker), its only white space is single spaces, each
    followed by a character that is not white space, and it neither begins
    nor ends with white space; the classification prompt built around it
    has at most 728 characters. *)
Theorem prepare_content_for_analysis_shape : forall raw_content : string,
  let prepared := prepare_content_for_analysis raw_content in
  (String.length prepared <= 503)%nat /\
  single_spaced prepared /\
  trimmed prepared /\
  (String.length (generate_classification_prompt raw_content) <= 728)%nat.
Proof.
  intros raw prepared.
  destruct (trimmed_collapsed raw) as [Hs Ht].
  destruct (cap_length_shape _ Hs Ht) as (Hlen & Hs' & Ht' & _).
  rewrite <- prepare_content_for_analysis_steps in Hlen, Hs', Ht'.
  split; [exact Hlen|]. split; [exact Hs'|]. split; [exact Ht'|].
  rewrite prompt_length. lia.
Qed.

(** X2.  Preparing is idempotent: preparing a prepared text gives it back,
    also when the first pass truncated it and appended the marker. *)
Theorem prepare_content_for_analysis_idempotent : forall raw_content : string,
  prepare_content_for_analysis (prepare_content_for_analysis raw_content)
  = prepare_content_for_analysis raw_content.
Proof.
  intros raw.
  destruct (trimmed_collapsed raw) as [Hs Ht].
  destruct (cap_length_shape _ Hs Ht) as (_ & Hs' & [Hf Hl] & Hcap).
  rewrite (prepare_content_for_analysis_steps raw).
  rewrite prepare_content_for_analysis_steps.
  unfold regex_replace_ws at 1.
  rewrite replace_ws_runs_fixed by (exact Hs' || discriminate).
  rewrite strip_leading_fixed by exact Hf.
  rewrite strip_trailing_fixed by exact Hl.
  exact Hcap.
Qed.
End PreparedContent.

(** ** The keyword decision in the returned result *)

Section KeywordVerdict.
Import Float32 StdString content_utils.

Lemma isupper_tolower (c : ascii) : isupper (tolower c) = false.
Proof. destruct c as [[] [] [] [] [] [] [] []]; reflexivity. Qed.

Lemma no_capitals_tolower (s : string) : no_capitals (transform tolower s).
Proof.
  induction s as [|c s IH]; [exact I|].
  split; [apply isupper_tolower | exact IH].
Qed.

Lemma isupper_space (c : ascii) : isspace c = true -> isupper c = false.
Proof.
  destruct c as [[] [] [] [] [] [] [] []]; intros H;
    (reflexivity || discriminate H).
Qed.

Lemma no_capitals_replace_ws_runs (in_run : bool) (s : string) :
  no_capitals s -> no_capitals (replace_ws_runs in_run s).
Proof.
  revert in_run. induction s as [|c s IH]; intros in_run; [auto|].
  intros [Hc Hs]. cbn [replace_ws_runs]. destruct (isspace c) eqn:E.
  - destruct in_run; [now apply IH|]. split; [reflexivity | now apply IH].
  - split; [exact Hc | now apply IH].
Qed.

Lemma no_match_computed (table : list (string * float)) (text : string) :
  forallb (fun pattern => negb (contains text (fst pattern))) table = true ->
  no_match table text.
Proof.
  intros H p w Hin Hocc. rewrite forallb_forall in H.
  specialize (H (p, w) Hin). cbn [fst] in H.
  apply contains_occurs in Hocc. now rewrite Hocc in H.
Qed.

(** C1 (amended).  For every input text, the text searched is the input
    lower-cased and then whitespace-collapsed (it has no upper-case letter
    and only single spaces); each table's score is the maximum weight over
    the phrases of the table that occur in it as substrings ([0.0f] when
    none occurs); one of four cases always applies (the productive maximum
    strictly greater, the unproductive one strictly greater, both equal and
    positive, no phrase of either table occurring).  When no surface
    override fires, the returned result is, in these cases: productive
    with the productive maximum and "educational_keywords"; unproductive
    with the unproductive maximum and "unproductive_keywords"; productive,
    0.5, "mixed_content"; productive, 0.6, "neutral_content"; and a text in
    which "tutorial" occurs and no unproductive phrase does is productive,
    0.9, "educational_keywords".  When an override fires (more than half of
    the letters upper-case, or more than three '!' or '?'), the returned
    result is none of these: it is unproductive with the reason
    "excessive_caps" or "excessive_punctuation". *)
Theorem keyword_decision_correct : forall (t : Z) (content : string),
  let text := regex_replace_ws (transform tolower content) in
  let pm := max_pattern_score productive_patterns text in
  let um := max_pattern_score unproductive_patterns text in
  let r := classify_with_heuristics t content in
  let result verdict weight tag :=
    {| is_productive := verdict; confidence := weight;
       reason := tag; processing_time_ms := t; success := true;
       error_message := "" |} in
  let overridden :=
    excessive_caps content = true \/ excessive_punctuation content = true in
  (lower_content content = text /\ no_capitals text /\ single_spaced text) /\
  is_max_weight productive_patterns text pm /\
  is_max_weight unproductive_patterns text um /\
  (ltb um pm = true \/ ltb pm um = true \/ (pm = um /\ ltb f0 pm = true) \/
   (no_match productive_patterns text /\ no_match unproductive_patterns text)) /\
  (~ overridden -> ltb um pm = true ->
   r = result true pm "educational_keywords") /\
  (~ overridden -> ltb pm um = true ->
   r = result false um "unproductive_keywords") /\
  (~ overridden -> pm = um -> ltb f0 pm = true ->
   r = result true f0_5 "mixed_content") /\
  (~ overridden ->
   no_match productive_patterns text -> no_match unproductive_patterns text ->
   r = result true f0_6 "neutral_content") /\
  (~ overridden ->
   occurs_in "tutorial" text -> no_match unproductive_patterns text ->
   r = result true f0_9 "educational_keywords") /\
  (overridden ->
   is_productive r = false /\
   In (reason r) ["excessive_caps"; "excessive_punctuation"] /\
   r <> result true pm "educational_keywords" /\
   r <> result false um "unproductive_keywords" /\
   r <> result true f0_5 "mixed_content" /\
   r <> result true f0_6 "neutral_content").
Proof.
  intros t content text pm um r result overridden.
  assert (Hpm : is_max_weight productive_patterns text pm)
    by apply max_pattern_score_is_max, productive_weights.
  assert (Hum : is_max_weight unproductive_patterns text um)
    by apply max_pattern_score_is_max, unproductive_weights.
  assert (Hplain : ~ overridden ->
            r = result (v_is_productive (keyword_decision text))
                  (v_confidence (keyword_decision text))
                  (v_reason (keyword_decision text))).
  { intros H. unfold overridden in H.
    destruct (excessive_caps content) eqn:Hc; [tauto|].
    destruct (excessive_punctuation content) eqn:Hp; [tauto|].
    unfold r, classify_with_heuristics, final_verdict, punctuation_override,
      caps_override. rewrite Hc, Hp. reflexivity. }
  assert (Hgt : ltb um pm = true ->
                keyword_decision text =
                  {| v_is_productive := true; v_confidence := pm;
                     v_reason := "educational_keywords" |}).
  { intros H. unfold keyword_decision. fold um pm. now rewrite H. }
  assert (Hneutral : no_match productive_patterns text ->
                     no_match unproductive_patterns text ->
                     keyword_decision text =
                       {| v_is_productive := true; v_confidence := f0_6;
                          v_reason := "neutral_content" |})
    by apply keyword_decision_neutral.
  split.
  { split; [reflexivity|]. split.
    - apply no_capitals_replace_ws_runs, no_capitals_tolower.
    - apply replace_ws_runs_single. }
  split; [exact Hpm|]. split; [exact Hum|].
  split.
  { destruct (keyword_decision_cases text) as [H | [H | [H | [Hp Hu]]]]; auto.
    do 3 right. split.
    - now apply (max_pattern_score_zero _ _ productive_weights).
    - now apply (max_pattern_score_zero _ _ unproductive_weights). }
  split.
  { intros Hn H. rewrite (Hplain Hn), (Hgt H). reflexivity. }
  split.
  { intros Hn H. rewrite (Hplain Hn). unfold keyword_decision. fold um pm.
    rewrite (ltb_asym _ _ H), H. reflexivity. }
  split.
  { intros Hn E H. rewrite (Hplain Hn). unfold keyword_decision. fold um pm.
    rewrite <- E, ltb_irrefl, H. reflexivity. }
  split.
  { intros Hn Hp Hu. rewrite (Hplain Hn), (Hneutral Hp Hu). reflexivity. }
  split.
  { intros Hn Hocc Hno. rewrite (Hplain Hn).
    apply (max_pattern_score_zero _ _ unproductive_weights) in Hno.
    fold um in Hno.
    assert (Hge : leb f0_9 pm = true).
    { destruct Hpm as [Hall _]. apply (Hall "tutorial"); [|exact Hocc].
      simpl. tauto. }
    assert (E : pm = f0_9).
    { generalize (productive_score_values text). fold pm. simpl.
      intros [<- | [<- | [<- | [<- | [<- | []]]]]];
        (discriminate Hge || reflexivity). }
    rewrite Hgt; rewrite E, ?Hno; reflexivity. }
  intros Hov.
  assert (Hr : is_productive r = false /\
               In (reason r) ["excessive_caps"; "excessive_punctuation"]).
  { unfold r, classify_with_heuristics, final_verdict, punctuation_override,
      caps_override. cbn [is_productive reason].
    destruct (excessive_punctuation content) eqn:Hp.
    - cbn [v_is_productive v_reason In]. auto.
    - destruct (excessive_caps content) eqn:Hc.
      + cbn [v_is_productive v_reason In]. auto.
      + destruct Hov; discriminate. }
  destruct Hr as [Hb Hreason].
  split; [exact Hb|]. split; [exact Hreason|].
  repeat split; intros E; rewrite E in Hb, Hreason; cbn in Hb, Hreason;
    try discriminate Hb;
    destruct Hreason as [H | [H | []]]; discriminate H.
Qed.

(** The texts "TUTORIAL" and "tutorial????" contain the phrase "tutorial"
    and no unproductive phrase once normalised, and are returned
    unproductive, with the reasons "excessive_caps" and
    "excessive_punctuation". *)
Lemma keyword_decision_overridden :
  (lower_content "TUTORIAL" = "tutorial" /\
   occurs_in "tutorial" (lower_content "TUTORIAL") /\
   no_match unproductive_patterns (lower_content "TUTORIAL") /\
   classify_with_heuristics 0 "TUTORIAL" =
     {| is_productive := false; confidence := f0_9;
        reason := "excessive_caps"; processing_time_ms := 0;
        success := true; error_message := "" |}) /\
  (lower_content "tutorial????" = "tutorial????" /\
   occurs_in "tutorial" (lower_content "tutorial????") /\
   no_match unproductive_patterns (lower_content "tutorial????") /\
   classify_with_heuristics 0 "tutorial????" =
     {| is_productive := false; confidence := f0_9;
        reason := "excessive_punctuation"; processing_time_ms := 0;
        success := true; error_message := "" |}).
Proof.
  split; (split; [vm_compute; reflexivity|]); (split; [|split]).
  - now exists "", "".
  - apply no_match_computed. vm_compute. reflexivity.
  - vm_compute. reflexivity.
  - now exists "", "????".
  - apply no_match_computed. vm_compute. reflexivity.
  - vm_compute. reflexivity.
Qed.
End KeywordVerdict.

(** ** The verdicts of the heuristic classifier *)

Section VerdictTable.
Import Float32 StdString content_utils.

Lemma productive_score_exact (text : string) :
  In (max_pattern_score productive_patterns text) [f0; f0_7; f0_8; f0_9].
Proof.
  destruct (max_pattern_score_values _ text productive_weights) as [-> | H].
  - now left.
  - simpl in H. simpl. intuition auto.
Qed.

Lemma final_verdict_in_table (content : string) :
  let v := final_verdict content in
  In (v_reason v, v_is_productive v, v_confidence v) verdict_table.
Proof.
  unfold final_verdict, keyword_decision, punctuation_override, caps_override.
  generalize (productive_score_exact (lower_content content))
             (unproductive_score_values (lower_content content)).
  generalize (max_pattern_score productive_patterns (lower_content content)) as pm.
  generalize (max_pattern_score unproductive_patterns (lower_content content)) as um.
  intros um pm.
  destruct (excessive_caps content), (excessive_punctuation content);
    score_cases; vm_compute; tauto.
Qed.

(** X3.  For every text the reason, the verdict and the confidence of
    [classify_with_heuristics] form one of sixteen combinations.  The
    verdict is productive exactly when the reason is "neutral_content",
    "mixed_content" or "educational_keywords", and unproductive exactly
    when it is "unproductive_keywords", "excessive_caps" or
    "excessive_punctuation"; an unproductive verdict has a confidence of
    at least 0.6, and the confidence 0.5 comes only with "mixed_content". *)
Theorem heuristic_verdict_table : forall (t : Z) (content : string),
  let r := classify_with_heuristics t content in
  In (reason r, is_productive r, confidence r) verdict_table /\
  (is_productive r = true <->
     In (reason r) ["neutral_content"; "mixed_content"; "educational_keywords"]) /\
  (is_productive r = false <->
     In (reason r)
        ["unproductive_keywords"; "excessive_caps"; "excessive_punctuation"]) /\
  (is_productive r = false -> leb f0_6 (confidence r) = true) /\
  (confidence r = f0_5 -> reason r = "mixed_content").
Proof.
  intros t content r.
  pose proof (final_verdict_in_table content) as H. cbv zeta in H.
  change (v_reason (final_verdict content)) with (reason r) in H.
  change (v_is_productive (final_verdict content)) with (is_productive r) in H.
  change (v_confidence (final_verdict content)) with (confidence r) in H.
  split; [exact H|].
  revert H. generalize (reason r) (is_productive r) (confidence r).
  intros s b c H. unfold verdict_table in H. cbn [In] in H.
  repeat (destruct H as [[= <- <- <-] | H]; [|]); try contradiction;
    (split; [|split; [|split]]);
    try (split; intros; try discriminate; try reflexivity; cbn [In];
         try tauto;
         repeat match goal with
                | H : _ \/ _ |- _ => destruct H
                | H : In _ _ |- _ => cbn [In] in H
                end; try discriminate; try contradiction);
    intros; try discriminate; try reflexivity.
Qed.
End VerdictTable.

(** ** The keyword count over the prompt *)

Section TemplateBias.
Import Float32 StdString content_utils LlamaWrapper.

Lemma prefix_separated (pat post a b : string) (q : ascii) :
  mem q pat = false -> pat ++ post = a ++ String q b ->
  exists post', a = pat ++ post'.
Proof.
  revert a. induction pat as [|p pat IH]; intros a Hq H.
  - now exists a.
  - cbn [mem] in Hq. apply orb_false_iff in Hq as [Hp Hq].
    change (String p (pat ++ post) = a ++ String q b) in H.
    destruct a as [|c a].
    + injection H as -> _. now rewrite Ascii.eqb_refl in Hp.
    + change (String p (pat ++ post) = String c (a ++ String q b)) in H.
      injection H as -> H. destruct (IH a Hq H) as [post' ->].
      now exists post'.
Qed.

Lemma occurs_in_separated (a b pat : string) (q : ascii) :
  mem q pat = false ->
  occurs_in pat (a ++ String q b) <-> occurs_in pat a \/ occurs_in pat b.
Proof.
  intros Hq. split.
  - intros (pre & post & H). revert pre H.
    induction a as [|c a IH]; intros pre H.
    + destruct pre as [|x pre].
      * destruct (prefix_separated pat post "" b q Hq (eq_sym H)) as [post' E].
        left. now exists "", post'.
      * injection H as _ H. right. now exists pre, post.
    + destruct pre as [|x pre].
      * destruct (prefix_separated pat post (String c a) b q Hq (eq_sym H))
          as [post' E].
        left. now exists "", post'.
      * change (String c (a ++ String q b) = String x (pre ++ pat ++ post)) in H.
        injection H as -> H.
        destruct (IH pre H) as [(pre' & post' & ->) | Hb]; [|now right].
        left. now exists (String x pre'), post'.
  - intros [(pre & post & ->) | (pre & post & ->)].
    + exists pre, (post ++ String q b). now rewrite !append_assoc.
    + exists (a ++ String q pre), post.
      rewrite append_assoc. reflexivity.
Qed.

Lemma contains_separated (a b pat : string) (q : ascii) :
  mem q pat = false ->
  contains (a ++ String q b) pat = contains a pat || contains b pat.
Proof.
  intros Hq. apply eq_true_iff_eq.
  rewrite orb_true_iff, !contains_occurs. now apply occurs_in_separated.
Qed.

Lemma contains_empty (pat : string) :
  pat <> "" -> contains "" pat = false.
Proof. destruct pat; [congruence | reflexivity]. Qed.

Lemma prompt_parts (content : string) :
  generate_classification_prompt content
  = prompt_opening
      ++ String double_quote
           (prepare_content_for_analysis content
              ++ String double_quote prompt_closing).
Proof.
  unfold generate_classification_prompt.
  generalize (prepare_content_for_analysis content) as prepared.
  intros prepared. vm_compute. reflexivity.
Qed.

Lemma lower_prompt_parts (content : string) :
  lower_prompt content
  = transform tolower prompt_opening
      ++ String double_quote
           (transform tolower (prepare_content_for_analysis content)
              ++ String double_quote (transform tolower prompt_closing)).
Proof.
  unfold lower_prompt. rewrite prompt_parts.
  rewrite transform_append.
  change (transform tolower (String double_quote ?x))
    with (String double_quote (transform tolower x)).
  rewrite transform_append. reflexivity.
Qed.

Lemma contains_lower_prompt (content keyword : string) :
  mem double_quote keyword = false -> keyword <> "" ->
  contains (lower_prompt content) keyword
  = contains (lower_prompt "") keyword
    || contains (transform tolower (prepare_content_for_analysis content)) keyword.
Proof.
  intros Hq Hne. rewrite !lower_prompt_parts.
  rewrite !contains_separated by exact Hq.
  change (transform tolower (prepare_content_for_analysis "")) with "".
  rewrite (contains_empty keyword Hne).
  destruct (contains (transform tolower prompt_opening) keyword),
    (contains (transform tolower (prepare_content_for_analysis content)) keyword),
    (contains (transform tolower prompt_closing) keyword); reflexivity.
Qed.

Lemma matching_cons (text keyword : string) (keywords : list string) :
  matching text (keyword :: keywords)
  = (if contains text keyword then 1 else 0) + matching text keywords.
Proof.
  unfold matching. cbn [List.filter].
  destruct (contains text keyword); cbn [length]; lia.
Qed.

Lemma matching_lower_prompt (content : string) (keywords : list string) :
  Forall (fun keyword => mem double_quote keyword = false /\ keyword <> "")
         keywords ->
  matching (lower_prompt content) keywords
  = matching (lower_prompt "") keywords
    + matching (transform tolower (prepare_content_for_analysis content))
               (content_keywords keywords).
Proof.
  induction 1 as [|keyword keywords [Hq Hne] _ IH].
  - reflexivity.
  - unfold content_keywords. cbn [List.filter].
    fold (content_keywords keywords).
    rewrite !matching_cons, IH, (contains_lower_prompt content keyword Hq Hne).
    destruct (contains (lower_prompt "") keyword); cbn [negb orb].
    + lia.
    + rewrite matching_cons. lia.
Qed.

Lemma keyword_score_matching (text : string) (keywords : list string) :
  Z.of_nat (length keywords) < 2^31 ->
  keyword_score text keywords = matching text keywords.
Proof.
  intros H. unfold keyword_score. rewrite count_loop; lia.
Qed.

Lemma plain_keywords :
  Forall (fun keyword => mem double_quote keyword = false /\ keyword <> "")
         productive_keywords /\
  Forall (fun keyword => mem double_quote keyword = false /\ keyword <> "")
         unproductive_keywords.
Proof.
  split; repeat (constructor; [split; [reflexivity | discriminate]|]);
    constructor.
Qed.

Lemma score_confidence_bounds (p u : Z) :
  0 <= p <= 12 -> 0 <= u <= 12 ->
  leb f0 (score_confidence p u) = true /\
  leb (score_confidence p u) f1 = true.
Proof.
  intros Hp Hu.
  assert (Ep : In p [0;1;2;3;4;5;6;7;8;9;10;11;12]) by (cbn [In]; lia).
  assert (Eu : In u [0;1;2;3;4;5;6;7;8;9;10;11;12]) by (cbn [In]; lia).
  clear Hp Hu. revert Ep Eu. score_cases; vm_compute; split; reflexivity.
Qed.

(** X4.  [classify_with_llama] searches its keywords in the whole
    lower-cased prompt, and the fixed text of the prompt contains one
    productive keyword ("education") and three unproductive ones
    ("gossip", "drama", "social").  So for every content the productive
    score is 1 plus the number [p] of the other eleven productive keywords
    that occur in the lower-cased prepared content, and the unproductive
    score is 3 plus the number [u] of the other nine; the verdict is
    productive exactly when [u + 2 <= p]; a content with none of the
    keywords is unproductive with confidence 0.5; the confidence lies
    between 0 and 1, and [success] is true. *)
Theorem classify_with_llama_template_bias :
  forall (t : Z) (content context : string),
  let body := transform tolower (prepare_content_for_analysis content) in
  let p := matching body (content_keywords productive_keywords) in
  let u := matching body (content_keywords unproductive_keywords) in
  let r := classify_with_llama t content context in
  content_keywords productive_keywords
    = [ "learn"; "research"; "study"; "analysis"; "work"; "project";
        "development"; "programming"; "science"; "technology"; "business" ] /\
  content_keywords unproductive_keywords
    = [ "funny"; "meme"; "viral"; "trending"; "celebrity"; "entertainment";
        "game"; "fun"; "party" ] /\
  keyword_score (lower_prompt content) productive_keywords = 1 + p /\
  keyword_score (lower_prompt content) unproductive_keywords = 3 + u /\
  is_productive r = (u + 2 <=? p) /\
  confidence r = score_confidence (1 + p) (3 + u) /\
  leb f0 (confidence r) = true /\ leb (confidence r) f1 = true /\
  success r = true /\ reason r = "llama_heuristic_fallback" /\
  (p = 0 -> u = 0 -> is_productive r = false /\ confidence r = f0_5) /\
  (is_productive r = true -> 2 <= p).
Proof.
  intros t content context body p u r.
  destruct plain_keywords as [Hp Hu].
  assert (Ep : keyword_score (lower_prompt content) productive_keywords = 1 + p).
  { rewrite keyword_score_matching by (cbn; lia).
    rewrite (matching_lower_prompt content _ Hp). reflexivity. }
  assert (Eu : keyword_score (lower_prompt content) unproductive_keywords = 3 + u).
  { rewrite keyword_score_matching by (cbn; lia).
    rewrite (matching_lower_prompt content _ Hu). reflexivity. }
  assert (Bp : 0 <= p <= 11) by apply matching_bounds.
  assert (Bu : 0 <= u <= 9) by apply matching_bounds.
  assert (Ec : confidence r = score_confidence (1 + p) (3 + u)).
  { unfold r, classify_with_llama. cbn [confidence]. now rewrite Ep, Eu. }
  assert (Eb : is_productive r = (u + 2 <=? p)).
  { unfold r, classify_with_llama. cbn [is_productive]. rewrite Ep, Eu.
    destruct (Z.leb_spec (3 + u) (1 + p)), (Z.leb_spec (u + 2) p);
      reflexivity || lia. }
  split; [vm_compute; reflexivity|]. split; [vm_compute; reflexivity|].
  split; [exact Ep|]. split; [exact Eu|]. split; [exact Eb|].
  split; [exact Ec|].
  rewrite Ec, Eb.
  destruct (score_confidence_bounds (1 + p) (3 + u)) as [H0 H1]; [lia | lia |].
  split; [exact H0|]. split; [exact H1|].
  split; [reflexivity|]. split; [reflexivity|]. split.
  - intros -> ->. split; vm_compute; reflexivity.
  - intros H. apply Z.leb_le in H. lia.
Qed.
End TemplateBias.

(** ** The bounds of the adjusted confidence *)

Section ContextBounds.
Import Float32 StdString content_utils ContentClassifier.

Lemma final_verdict_confidence (content : string) :
  In (v_confidence (final_verdict content)) [f0_5; f0_6; f0_7; f0_8; f0_9].
Proof.
  pose proof (final_verdict_in_table content) as H. cbv zeta in H.
  revert H.
  generalize (v_reason (final_verdict content))
             (v_is_productive (final_verdict content))
             (v_confidence (final_verdict content)).
  intros s b c H. unfold verdict_table in H. cbn [In] in H.
  repeat (destruct H as [[= <- <- <-] | H]; [|]); try contradiction;
    cbn [In]; tauto.
Qed.

Lemma adjusted_confidence_bounds (base : ClassificationResult)
    (context : ClassificationContext) :
  In (confidence base) [f0_5; f0_6; f0_7; f0_8; f0_9] ->
  let r := apply_context_adjustments base context in
  leb f0_4 (confidence r) = true /\
  leb (confidence r) f1 = true /\
  (50 <= content_length context -> leb (confidence base) (confidence r) = true).
Proof.
  destruct base as [b c s t ok e]. cbn [confidence]. intros Hc. cbv zeta.
  unfold apply_context_adjustments, adjust_for_length, adjust_for_category,
    adjust_for_app, boost.
  destruct (contains (app_package context) "linkedin"),
    (contains (app_package context) "tiktok"), (category context), b,
    (Z.ltb_spec (content_length context) 50),
    (Z.ltb_spec 500 (content_length context));
    cbn [is_productive negb confidence append_reason set_confidence];
    cbn [In] in Hc;
    repeat (destruct Hc as [<- | Hc]; [|]); try contradiction;
    (split; [vm_compute; reflexivity|]);
    (split; [vm_compute; reflexivity|]);
    intros; try lia; vm_compute; reflexivity.
Qed.

(** X5.  For every text and context, [classify_with_context] keeps the
    verdict of the heuristic classifier, succeeds with no error message,
    extends the heuristic reason by a suffix, and returns a confidence
    between 0.4 and 1.0; unless the content is shorter than 50 characters
    the confidence is at least the heuristic one.  The same bounds hold
    for the public [classify_content_with_context]. *)
Theorem classify_with_context_bounds :
  forall (t : Z) (content : string) (context : ClassificationContext),
  let base := classify_with_heuristics t content in
  let r := classify_with_context t content context in
  is_productive r = is_productive base /\
  success r = true /\ error_message r = "" /\ processing_time_ms r = t /\
  (exists suffix, reason r = reason base ++ suffix) /\
  leb f0_4 (confidence r) = true /\
  leb (confidence r) f1 = true /\
  (50 <= content_length context -> leb (confidence base) (confidence r) = true) /\
  (forall app_package context_info,
     let r' := classify_content_with_context t content app_package context_info in
     is_productive r' = is_productive base /\
     leb f0_4 (confidence r') = true /\ leb (confidence r') f1 = true).
Proof.
  intros t content context base r.
  assert (Hc : In (confidence base) [f0_5; f0_6; f0_7; f0_8; f0_9])
    by apply final_verdict_confidence.
  assert (Hfields : forall ctx,
    let r := apply_context_adjustments base ctx in
    is_productive r = is_productive base /\ success r = success base /\
    error_message r = error_message base /\
    processing_time_ms r = processing_time_ms base /\
    exists suffix, reason r = reason base ++ suffix).
  { intros ctx. cbv zeta. unfold apply_context_adjustments.
    destruct (adjust_for_app_spec base ctx) as (P1 & R1 & _).
    destruct (adjust_for_category_spec (adjust_for_app base ctx) ctx)
      as (P2 & R2 & _).
    destruct (adjust_for_length_spec
                (adjust_for_category (adjust_for_app base ctx) ctx) ctx)
      as (P3 & R3 & _).
    cbv zeta in *.
    split; [congruence|].
    split.
    { unfold adjust_for_length, adjust_for_category, adjust_for_app, boost.
      repeat match goal with
             | |- context [if ?b then _ else _] => destruct b
             | |- context [match category ?c with _ => _ end] =>
                 destruct (category c)
             end; reflexivity. }
    split.
    { unfold adjust_for_length, adjust_for_category, adjust_for_app, boost.
      repeat match goal with
             | |- context [if ?b then _ else _] => destruct b
             | |- context [match category ?c with _ => _ end] =>
                 destruct (category c)
             end; reflexivity. }
    split.
    { unfold adjust_for_length, adjust_for_category, adjust_for_app, boost.
      repeat match goal with
             | |- context [if ?b then _ else _] => destruct b
             | |- context [match category ?c with _ => _ end] =>
                 destruct (category c)
             end; reflexivity. }
    eexists. rewrite R3, R2, R1, !append_assoc. reflexivity. }
  destruct (Hfields context) as (F1 & F2 & F3 & F4 & F5).
  destruct (adjusted_confidence_bounds base context Hc) as (B1 & B2 & B3).
  split; [exact F1|]. split; [exact F2|]. split; [exact F3|].
  split; [exact F4|]. split; [exact F5|].
  split; [exact B1|]. split; [exact B2|]. split; [exact B3|].
  intros app info r'. unfold r', classify_content_with_context,
    classify_with_context. fold base.
  match goal with
  | |- context [apply_context_adjustments base ?c] =>
      destruct (Hfields c) as (G1 & _);
      destruct (adjusted_confidence_bounds base c Hc) as (C1 & C2 & _)
  end.
  split; [exact G1|]. split; [exact C1 | exact C2].
Qed.

End ContextBounds.

(** ** Category names *)

Section CategoryName.
Import StdString ContentClassifier.

Lemma matching_zero (text : string) (keywords : list string) :
  matching text keywords = 0 <->
  forall keyword, In keyword keywords -> ~ occurs_in keyword text.
Proof.
  induction keywords as [|k keywords IH].
  - split; [intros _ keyword [] | reflexivity].
  - unfold matching in *. cbn [List.filter].
    destruct (contains text k) eqn:E.
    + split; [cbn [length]; lia|].
      intros H. exfalso. apply (H k); [now left|].
      now apply contains_occurs.
    + rewrite IH. split.
      * intros H keyword [<- | Hin]; [|now apply H].
        rewrite <- contains_occurs. congruence.
      * intros H keyword Hin. apply H. now right.
Qed.

(** X6.  For every text [get_content_category_name] returns "news",
    "educational", "entertainment", "commercial" or "unknown", never
    "social"; it returns "unknown" exactly when no keyword of the four
    sets occurs in the lower-cased text. *)
Theorem get_content_category_name_values : forall content : string,
  let name := get_content_category_name content in
  In name ["news"; "educational"; "entertainment"; "commercial"; "unknown"] /\
  name <> "social" /\
  (name = "unknown" <->
     forall keyword, In keyword all_keywords ->
       ~ occurs_in keyword (transform tolower content)).
Proof.
  intros content name.
  pose proof (determine_category_not_social content) as Hsocial.
  assert (Hu : determine_category content = UNKNOWN <->
               forall keyword, In keyword all_keywords ->
                 ~ occurs_in keyword (transform tolower content)).
  { destruct (score_nonneg content) as (Hn & He & Ht & Hc).
    assert (E : determine_category content = UNKNOWN <->
                news_score content = 0 /\ educational_score content = 0 /\
                entertainment_score content = 0 /\ commercial_score content = 0).
    { unfold determine_category, max_score.
      repeat match goal with
             | |- context [?a =? ?b] => destruct (Z.eqb_spec a b)
             end; split; intros; try discriminate; try reflexivity; lia. }
    rewrite E. unfold news_score, educational_score, entertainment_score,
      commercial_score.
    rewrite !count_keywords_matching by (simpl; lia).
    rewrite !matching_zero. unfold all_keywords. split.
    - intros (H1 & H2 & H3 & H4) keyword Hin.
      rewrite !in_app_iff in Hin. intuition eauto.
    - intros H. repeat split; intros keyword Hin; apply H;
        rewrite !in_app_iff; tauto. }
  unfold name, get_content_category_name.
  destruct (determine_category content) eqn:E.
  all: try (split; [cbn [In]; tauto|]; split; [discriminate|];
            split; [discriminate|]; intros H; apply Hu in H; discriminate).
  - now contradiction Hsocial.
  - split; [cbn [In]; tauto|]. split; [discriminate|].
    split; [intros _; now apply Hu | reflexivity].
Qed.
End CategoryName.

(** ** The placeholder file *)

Section Placeholder.
Import StdString ModelLoader.


End Placeholder.

(** ** Acquisition, validation and loading *)

Section DownloadThenLoad.
Import Float32 StdString ModelLoader.

Context {Caller : Type}.



End DownloadThenLoad.


(** ** The catalogue and its formatting *)

Section Catalogue.
Import StdString ModelLoader.

(** X9.  [format_file_size] shows a number [n] and a unit among B, KB, MB
    and GB with [n * unit <= bytes < (n + 1) * unit]: the size is
    truncated, never rounded up.  The number is below 1024 except in GB,
    and at least 1 except in B. *)
Theorem format_file_size_truncates : forall bytes : Z,
  exists (n k : Z) (unit : string),
    In (k, unit) [(0, "B"); (1, "KB"); (2, "MB"); (3, "GB")] /\
    format_file_size bytes = to_string n ++ " " ++ unit /\
    n * 1024 ^ k <= bytes < (n + 1) * 1024 ^ k /\
    (k < 3 -> n < 1024) /\
    (0 < k -> 1 <= n).
Proof.
  intros bytes. unfold format_file_size.
  destruct (Z.ltb_spec bytes 1024) as [H1 | H1].
  { exists bytes, 0, "B". cbn [In]. repeat split; try tauto; lia. }
  destruct (Z.ltb_spec bytes (1024 * 1024)) as [H2 | H2].
  { exists (bytes / 1024), 1, "KB". cbn [In].
    pose proof (Z.div_mod bytes 1024 ltac:(lia)).
    pose proof (Z.mod_pos_bound bytes 1024 ltac:(lia)).
    repeat split; try tauto; lia. }
  destruct (Z.ltb_spec bytes (1024 * 1024 * 1024)) as [H3 | H3].
  { exists (bytes / 1024 / 1024), 2, "MB". cbn [In].
    rewrite Z.div_div by lia.
    change (1024 * 1024) with 1048576 in *. change (1024 ^ 2) with 1048576.
    pose proof (Z.div_mod bytes 1048576 ltac:(lia)).
    pose proof (Z.mod_pos_bound bytes 1048576 ltac:(lia)).
    repeat split; try tauto; lia. }
  exists (bytes / 1024 / 1024 / 1024), 3, "GB". cbn [In].
  assert (E : bytes / 1024 / 1024 / 1024 = bytes / 1073741824)
    by (rewrite !Z.div_div by lia; reflexivity).
  rewrite E. change (1024 * 1024 * 1024) with 1073741824 in *.
  change (1024 ^ 3) with 1073741824.
  pose proof (Z.div_mod bytes 1073741824 ltac:(lia)).
  pose proof (Z.mod_pos_bound bytes 1073741824 ltac:(lia)).
  repeat split; try tauto; lia.
Qed.

Lemma find_model_info_found (models : list ModelInfo) (model : ModelInfo) :
  List.NoDup (map name models) -> In model models ->
  find_model_info models (name model)
  = description model ++ " (Size: " ++ format_file_size (size_bytes model) ++ ")".
Proof.
  induction models as [|m models IH]; [intros _ []|].
  cbn [map]. intros Hnd [-> | Hin]; cbn [find_model_info].
  - now rewrite String.eqb_refl.
  - inversion Hnd as [|? ? Hnotin Hnd']; subst.
    destruct (String.eqb_spec (name m) (name model)) as [E | _].
    + exfalso. apply Hnotin. rewrite E. now apply in_map.
    + now apply IH.
Qed.

Lemma find_model_info_missing (models : list ModelInfo) (model_name : string) :
  ~ In model_name (map name models) ->
  find_model_info models model_name = "Model not found: " ++ model_name.
Proof.
  induction models as [|m models IH]; [reflexivity|].
  cbn [map In find_model_info]. intros H.
  destruct (String.eqb_spec (name m) model_name) as [E | _]; [tauto|].
  apply IH. tauto.
Qed.

(** X10.  [get_model_download_info] looks the name up in the catalogue:
    for the name of a catalogue entry it returns the entry's description
    and formatted size, for any other name "Model not found: " and the
    name.  The catalogue names are "gemma-270m-q4" and "gemma-2b-q4"; the
    second entry, of 1200 MB, is shown with "1 GB". *)
Theorem get_model_download_info_lookup : forall model_name : string,
  (forall model, In model get_available_models -> name model = model_name ->
     get_model_download_info model_name
     = description model ++ " (Size: " ++ format_file_size (size_bytes model)
         ++ ")") /\
  (~ In model_name get_available_model_names ->
     get_model_download_info model_name = "Model not found: " ++ model_name) /\
  (In model_name get_available_model_names <->
     exists model, In model get_available_models /\ name model = model_name) /\
  get_available_model_names = ["gemma-270m-q4"; "gemma-2b-q4"] /\
  get_model_download_info "gemma-2b-q4"
    = "Gemma 3 2B - Higher quality but larger model (Size: 1 GB)".
Proof.
  intros model_name. split; [|split; [|split; [|split]]].
  - intros model Hin <-. unfold get_model_download_info.
    apply find_model_info_found; [|exact Hin].
    repeat (constructor; [cbn; intuition discriminate|]). constructor.
  - intros H. now apply find_model_info_missing.
  - unfold get_available_model_names. rewrite in_map_iff.
    split; intros (model & H1 & H2); exists model; auto.
  - reflexivity.
  - vm_compute. reflexivity.
Qed.


End Catalogue.

(** ** The life cycle of the wrapper *)

Section WrapperLifeCycle.
Import Float32 StdString content_utils LlamaWrapper.

Lemma classify_content_loaded (this : Impl) (indeterminate : ClassificationResult)
    (heuristics_time total_time : Z) (content context : string) :
  model_loaded_ this = true -> content <> "" ->
  classify_content this indeterminate heuristics_time total_time content context
  = set_processing_time_ms (classify_with_heuristics heuristics_time content)
      total_time.
Proof.
  intros Hl Hc. unfold classify_content. rewrite Hl.
  destruct content; [congruence | reflexivity].
Qed.

(** X12.  When [load_model] fails on a wrapper that holds a loaded model,
    because the new file cannot be opened, the wrapper stays loaded and
    keeps classifying, but its configuration is already replaced:
    [get_model_info] names the path that failed to load. *)
Theorem failed_reload_keeps_model :
  forall (fs : FileSystem) (this : Impl) (config : ModelConfig),
  is_model_loaded this = true ->
  files fs !! model_path config = None ->
  let this' := fst (load_model fs this config) in
  snd (load_model fs this config) = false /\
  is_model_loaded this' = true /\
  model_config_ this' = config /\
  get_model_info this' = "Fallback mode: " ++ model_path config /\
  get_memory_usage this' = 209715200 /\
  (forall indeterminate t t' content context, content <> "" ->
     success (classify_content this' indeterminate t t' content context) = true).
Proof.
  intros fs this config Hl Hf. unfold is_model_loaded in Hl.
  unfold load_model, ifstream_good. rewrite Hf. cbn [negb fst snd].
  unfold is_model_loaded, get_model_info, get_memory_usage.
  cbn [model_loaded_ model_config_]. rewrite Hl.
  repeat split.
  intros ind t t' content context Hc.
  rewrite classify_content_loaded by (assumption || reflexivity). reflexivity.
Qed.

(** X13.  After [unload_model] the wrapper is not loaded, reports a
    memory usage of 0 and "Model not loaded", keeps its configuration,
    rejects every classification with the error "Model not loaded", and
    unloading it again changes nothing.  In every state the memory usage
    is 0 exactly when no model is loaded, and the model information is
    "Model not loaded" exactly then. *)
Theorem unload_model_resets : forall this : Impl,
  let this' := unload_model this in
  is_model_loaded this' = false /\
  get_memory_usage this' = 0 /\
  get_model_info this' = "Model not loaded" /\
  model_config_ this' = model_config_ this /\
  unload_model this' = this' /\
  (forall indeterminate t t' content context,
     let r := classify_content this' indeterminate t t' content context in
     success r = false /\ error_message r = "Model not loaded") /\
  (get_memory_usage this = 0 <-> is_model_loaded this = false) /\
  (get_model_info this = "Model not loaded" <-> is_model_loaded this = false).
Proof.
  intros [loaded available config]. cbv zeta.
  unfold unload_model, is_model_loaded, get_memory_usage, get_model_info,
    classify_content.
  cbn [model_loaded_ model_config_ llama_available_].
  destruct loaded; cbn [model_loaded_ model_config_ negb];
    repeat split; intros; try reflexivity; try discriminate; try lia.
Qed.

Lemma failed_reload_keeps_model_witness :
  let fs := {| files := {[ "/models/a.gguf" := [] ]};
               creatable := fun _ => false |} in
  let config path :=
    {| model_path := path; n_ctx := 2048; n_threads := 4;
       temperature := f0_1; top_k := 1; top_p := f0_1;
       use_mmap := true; use_mlock := false; n_gpu_layers := 0 |} in
  let this := fst (load_model fs new_Impl (config "/models/a.gguf")) in
  is_model_loaded this = true /\
  get_model_info (fst (load_model fs this (config "/models/b.gguf")))
    = "Fallback mode: /models/b.gguf".
Proof.
  intros fs config this. split; [reflexivity|].
  destruct (failed_reload_keeps_model fs this (config "/models/b.gguf"))
    as (_ & _ & _ & H & _); [reflexivity | reflexivity | exact H].
Defined.
End WrapperLifeCycle.

(** ** The JNI entry points *)

Section Bridge.
Import Float32 StdString content_utils LlamaWrapper native_bridge.

(** X14.  The life cycle through the JNI entry points.  [nativeInit]
    returns true, creates an unloaded wrapper when there is none and keeps
    an existing one with its state.  [nativeLoadModel] on a null wrapper
    returns false and leaves it null.  After [nativeInit], loading a path
    whose file can be opened returns true and the model counts as loaded,
    with 200 MB of memory; loading a path that cannot be opened returns
    false and leaves the loaded state as it was; a path string that cannot
    be obtained changes nothing.  [nativeCleanup] leaves the wrapper null:
    not loaded, memory usage 0.  The memory usage is 0 exactly when no
    model is loaded. *)
Theorem native_bridge_life_cycle :
  forall (fs : FileSystem) (g_llama_wrapper : option Impl)
         (path_cstr : option string) (n_ctx n_threads : Z) (temperature : float),
  let initialised := fst (nativeInit g_llama_wrapper) in
  let loaded :=
    nativeLoadModel fs initialised path_cstr n_ctx n_threads temperature in
  snd (nativeInit g_llama_wrapper) = true /\
  (g_llama_wrapper = None -> initialised = Some new_Impl) /\
  (g_llama_wrapper <> None -> initialised = g_llama_wrapper) /\
  nativeLoadModel fs None path_cstr n_ctx n_threads temperature = (None, false) /\
  (forall path data, path_cstr = Some path ->
     files fs !! c_string path = Some data ->
     snd loaded = true /\ nativeIsModelLoaded (fst loaded) = true /\
     nativeGetMemoryUsage (fst loaded) = 209715200) /\
  (forall path, path_cstr = Some path -> files fs !! c_string path = None ->
     snd loaded = false /\
     nativeIsModelLoaded (fst loaded) = nativeIsModelLoaded g_llama_wrapper) /\
  (path_cstr = None -> loaded = (initialised, false)) /\
  nativeCleanup (fst loaded) = None /\
  nativeIsModelLoaded (nativeCleanup (fst loaded)) = false /\
  nativeGetMemoryUsage (nativeCleanup (fst loaded)) = 0 /\
  (nativeGetMemoryUsage g_llama_wrapper = 0
   <-> nativeIsModelLoaded g_llama_wrapper = false).
Proof.
  intros fs g path_cstr n_ctx n_threads temperature. cbv zeta.
  split; [now destruct g|].
  split; [now intros ->|].
  split; [destruct g; [reflexivity | congruence]|].
  split; [reflexivity|].
  assert (Hinit : exists wrapper, fst (nativeInit g) = Some wrapper /\
            model_loaded_ wrapper = nativeIsModelLoaded g).
  { destruct g as [w|]; eexists; split; reflexivity. }
  destruct Hinit as (wrapper & -> & Hw).
  split.
  { intros path data -> Hf. unfold nativeLoadModel, load_model, ifstream_good.
    cbn [model_path]. rewrite Hf. repeat split. }
  split.
  { intros path -> Hf. unfold nativeLoadModel, load_model, ifstream_good.
    cbn [model_path]. rewrite Hf. cbn [negb fst snd nativeIsModelLoaded].
    split; [reflexivity | exact Hw]. }
  split; [now intros ->|].
  split.
  { unfold nativeLoadModel. destruct path_cstr as [path|]; [|reflexivity].
    destruct (load_model _ _ _). reflexivity. }
  split.
  { unfold nativeLoadModel. destruct path_cstr as [path|]; [|reflexivity].
    destruct (load_model _ _ _). reflexivity. }
  split.
  { unfold nativeLoadModel. destruct path_cstr as [path|]; [|reflexivity].
    destruct (load_model _ _ _). reflexivity. }
  destruct g as [[[] a c]|]; cbn; split; intros; try reflexivity;
    try discriminate; lia.
Qed.

Lemma json_of_success (result : ClassificationResult) :
  success result = true ->
  json_of_result result
  = "{" ++ json_members true (is_productive result)
             (StdFormat.to_string_float (confidence result)) (reason result)
             (processing_time_ms result) ++ "}".
Proof.
  destruct result as [b c s t ok e]. cbn [success]. intros ->.
  unfold json_of_result, json_members, quoted.
  cbn [success is_productive confidence reason processing_time_ms negb].
  generalize (StdFormat.to_string_float c) (to_string t) (bool_text b).
  intros x y z. rewrite !append_assoc. reflexivity.
Qed.

Lemma json_of_failure (result : ClassificationResult) :
  success result = false ->
  json_of_result result
  = "{" ++ json_members false (is_productive result)
             (StdFormat.to_string_float (confidence result)) (reason result)
             (processing_time_ms result)
        ++ "," ++ quoted "error" ++ ":" ++ quoted (error_message result) ++ "}".
Proof.
  destruct result as [b c s t ok e]. cbn [success]. intros ->.
  unfold json_of_result, json_members, quoted.
  cbn [success is_productive confidence reason processing_time_ms negb
       error_message].
  generalize (StdFormat.to_string_float c) (to_string t) (bool_text b).
  intros x y z. rewrite !append_assoc. reflexivity.
Qed.

(** X15.  The responses of [nativeClassifyContent].  Without a loaded
    model it is the object with [success] false and the error "Model not
    loaded", and nothing else; when the content string cannot be obtained,
    the same with "Invalid content".  With a loaded model and an empty
    content the object has all five members, those of the verdict, the
    confidence and the time taken from indeterminate values, and the
    error "Empty content".  For any other content the object has exactly
    the five members, with [success] true and no error member; the
    confidence is printed as one of 0.500000, 0.600000, 0.700000, 0.800000
    and 0.900000, and the reason is one of the six tags of the heuristic
    classifier, none of which needs escaping. *)
Theorem nativeClassifyContent_responses :
  forall (g_llama_wrapper : option Impl) (indeterminate : ClassificationResult)
         (heuristics_time total_time : Z)
         (content_cstr : option string) (context : option (option string)),
  let json :=
    nativeClassifyContent g_llama_wrapper indeterminate heuristics_time
      total_time content_cstr context in
  (nativeIsModelLoaded g_llama_wrapper = false ->
     json = "{" ++ quoted "success" ++ ":false," ++ quoted "error" ++ ":"
              ++ quoted "Model not loaded" ++ "}") /\
  (nativeIsModelLoaded g_llama_wrapper = true -> content_cstr = None ->
     json = "{" ++ quoted "success" ++ ":false," ++ quoted "error" ++ ":"
              ++ quoted "Invalid content" ++ "}") /\
  (forall chars, nativeIsModelLoaded g_llama_wrapper = true ->
     content_cstr = Some chars -> c_string chars = "" ->
     json = "{" ++ json_members false (is_productive indeterminate)
                     (StdFormat.to_string_float (confidence indeterminate)) ""
                     (processing_time_ms indeterminate)
              ++ "," ++ quoted "error" ++ ":" ++ quoted "Empty content" ++ "}") /\
  (forall chars, nativeIsModelLoaded g_llama_wrapper = true ->
     content_cstr = Some chars -> c_string chars <> "" ->
     let base := classify_with_heuristics heuristics_time (c_string chars) in
     json = "{" ++ json_members true (is_productive base)
                     (StdFormat.to_string_float (confidence base)) (reason base)
                     total_time ++ "}" /\
     In (confidence base, StdFormat.to_string_float (confidence base))
        confidence_texts /\
     In (reason base)
        [ "neutral_content"; "mixed_content"; "educational_keywords";
          "unproductive_keywords"; "excessive_caps"; "excessive_punctuation" ]).
Proof.
  intros g ind t1 t2 content_cstr context json. subst json.
  unfold nativeClassifyContent.
  destruct g as [wrapper|]; cbn [nativeIsModelLoaded].
  2:{ split; [reflexivity|]. repeat split; intros; discriminate. }
  unfold is_model_loaded. destruct (model_loaded_ wrapper) eqn:Hl; cbn [negb].
  2:{ split; [reflexivity|]. repeat split; intros; discriminate. }
  split; [discriminate|].
  split; [intros _ ->; reflexivity|].
  split.
  - intros chars _ -> Hc. rewrite Hc.
    unfold classify_content. rewrite Hl. cbn [negb LlamaWrapper.empty].
    rewrite json_of_failure by reflexivity. reflexivity.
  - intros chars _ -> Hc.
    set (base := classify_with_heuristics t1 (c_string chars)).
    rewrite classify_content_loaded by assumption.
    rewrite json_of_success by reflexivity.
    split; [reflexivity|].
    pose proof (final_verdict_in_table (c_string chars)) as H. cbv zeta in H.
    change (v_reason (final_verdict (c_string chars))) with (reason base) in H.
    change (v_confidence (final_verdict (c_string chars)))
      with (confidence base) in H.
    revert H. generalize (reason base) (confidence base)
      (v_is_productive (final_verdict (c_string chars))).
    intros s c b H. unfold verdict_table in H. cbn [In] in H.
    repeat (destruct H as [[= <- <- <-] | H]; [|]); try contradiction;
      (split; [vm_compute; tauto | cbn [In]; tauto]).
Qed.

End Bridge.
